(** * Silkify: the transformation pipeline, the upload handler and the
      in-memory record store

    A shallow embedding of the server side of the Silkify web application
    (shared/types.ts, shared/schema.ts, server/storage.ts, server/openai.ts,
    server/gemini.ts, server/routes.ts) and of the client-side logic around
    it (the upload check and the drop handler of ImageUploader, the
    transform handler of TransformationWorkspace, the gradient table of
    StyleSelection), with the properties of the written specification, and
    further properties of the code, stated and proved over it.

    Conventions of the embedding:
    - a JavaScript string is the list of its UTF-16 code units, each a [Z];
    - a byte of a [Buffer] is a [Z] in the range 0..255;
    - record identifiers and counters are JavaScript numbers that only ever
      hold small positive integers; they are modelled as [Z] (exact below
      2^53, far beyond the capacity of a [Map]);
    - a [Map] is the list of its entries in insertion order;
    - the two OpenAI calls are the only external effects of the pipeline:
      the embedding threads the log of the calls made and lets every call
      either resolve or reject. Console logging is left out. *)

From Stdlib Require Import ZArith List Bool Lia String Ascii Sorted FinFun.
Import ListNotations.
Open Scope Z_scope.

(* ================================================================= *)
(** ** JavaScript strings *)

Module JsString.

Definition code_unit := Z.
Definition jsstring := list code_unit.

(** The string of an ASCII literal of the source. *)
Definition lit (s : string) : jsstring :=
  map (fun a => Z.of_nat (nat_of_ascii a)) (list_ascii_of_string s).

Fixpoint eqb (s t : jsstring) : bool :=
  match s, t with
  | [], [] => true
  | a :: s', b :: t' => (a =? b) && eqb s' t'
  | _, _ => false
  end.

(** WhiteSpace and LineTerminator code points of ECMAScript, the ones
    [String.prototype.trim] strips: TAB, LF, VT, FF, CR, SP, NBSP, the
    Unicode space separators, LS, PS and the byte-order mark. *)
Definition is_white_space (c : code_unit) : bool :=
  ((9 <=? c) && (c <=? 13))
  || (c =? 32) || (c =? 160) || (c =? 5760)
  || ((8192 <=? c) && (c <=? 8202))
  || (c =? 8232) || (c =? 8233) || (c =? 8239) || (c =? 8287)
  || (c =? 12288) || (c =? 65279).

Fixpoint trimStart (s : jsstring) : jsstring :=
  match s with
  | [] => []
  | c :: s' => if is_white_space c then trimStart s' else s
  end.

Definition trimEnd (s : jsstring) : jsstring := rev (trimStart (rev s)).

(** [s.trim()] *)
Definition trim (s : jsstring) : jsstring := trimEnd (trimStart s).

(** [s.startsWith(p)] *)
Fixpoint startsWith (s p : jsstring) : bool :=
  match p, s with
  | [], _ => true
  | a :: p', b :: s' => (a =? b) && startsWith s' p'
  | _ :: _, [] => false
  end.

(** [s.includes(p)]: [p] occurs in [s] as a contiguous run. *)
Fixpoint includes (s p : jsstring) : bool :=
  startsWith s p ||
  match s with
  | [] => false
  | _ :: s' => includes s' p
  end.

(** [arr.includes(s)] for an array of strings. *)
Definition array_includes (arr : list jsstring) (s : jsstring) : bool :=
  existsb (eqb s) arr.

(** A string is falsy exactly when it is empty. *)
Definition truthy (s : jsstring) : bool :=
  match s with [] => false | _ :: _ => true end.

Definition LF : jsstring := [10].

End JsString.
Import JsString.

(* ================================================================= *)
(** ** Errors, outcomes of awaited calls, and the call log *)

(** An [Error] object: [new Error(msg)] has a message and no cause,
    [new Error(msg, { cause })] keeps the error it was made from. *)
Inductive js_error : Type :=
| Error (msg : jsstring)
| ErrorWithCause (msg : jsstring) (original : js_error).

Definition message (e : js_error) : jsstring :=
  match e with Error m | ErrorWithCause m _ => m end.

Definition cause (e : js_error) : option js_error :=
  match e with Error _ => None | ErrorWithCause _ c => Some c end.

(** [new Error(msg)] *)
Definition new_Error (msg : jsstring) : js_error := Error msg.

(** The [TypeError] raised by reading a property of [undefined]; the text
    is the one Node prints for [undefined.message]. *)
Definition TypeError_undefined_message : js_error :=
  new_Error (lit "Cannot read properties of undefined (reading 'message')").

(** What awaiting a promise gives. *)
Inductive outcome (A : Type) : Type :=
| Resolved (a : A)
| Rejected (e : js_error).
Arguments Resolved {A} a.
Arguments Rejected {A} e.

(* ----------------------------------------------------------------- *)
(** *** The OpenAI client *)

(** The argument of [openai.chat.completions.create]: the model, the text
    part and the image URL part of the single user message, and the token
    limit. *)
Record chat_request : Type := {
  chat_model : jsstring;
  chat_text : jsstring;
  chat_image_url : jsstring;
  chat_max_tokens : Z
}.

(** A choice of a completion; [message.content] is a string or null. *)
Record chat_choice : Type := { content : option jsstring }.

Record chat_completion : Type := { choices : list chat_choice }.

(** The argument of [openai.images.generate]. *)
Record image_request : Type := {
  img_model : jsstring;
  img_prompt : jsstring;
  img_n : Z;
  img_size : jsstring;
  img_quality : jsstring
}.

Record image_datum : Type := { url : option jsstring }.

Record images_response : Type := { data : option (list image_datum) }.

(** The two capabilities the pipeline consumes. *)
Record OpenAI : Type := {
  chat_completions_create : chat_request -> outcome chat_completion;
  images_generate : image_request -> outcome images_response
}.

Inductive call : Type :=
| ChatCompletionsCreate (r : chat_request)
| ImagesGenerate (r : image_request).

Definition is_generate (c : call) : bool :=
  match c with ImagesGenerate _ => true | ChatCompletionsCreate _ => false end.

(* ----------------------------------------------------------------- *)
(** *** A monad for code that throws and calls out *)

Inductive result (A : Type) : Type :=
| Ok (a : A)
| Throw (e : js_error).
Arguments Ok {A} a.
Arguments Throw {A} e.

(** A computation takes the log of the calls made so far and gives its
    result with the extended log. *)
Definition IO (A : Type) : Type := list call -> result A * list call.

Definition ret {A} (a : A) : IO A := fun log => (Ok a, log).

Definition throw {A} (e : js_error) : IO A := fun log => (Throw e, log).

Definition bind {A B} (m : IO A) (k : A -> IO B) : IO B :=
  fun log =>
    match m log with
    | (Ok a, log') => k a log'
    | (Throw e, log') => (Throw e, log')
    end.

(** [try { body } catch (error) { handler }] *)
Definition try_catch {A} (body : IO A) (handler : js_error -> IO A) : IO A :=
  fun log =>
    match body log with
    | (Ok a, log') => (Ok a, log')
    | (Throw e, log') => handler e log'
    end.

(** [await p]: the call is logged, a rejection is thrown. *)
Definition await {A} (c : call) (o : outcome A) : IO A :=
  fun log =>
    match o with
    | Resolved a => (Ok a, log ++ [c])
    | Rejected e => (Throw e, log ++ [c])
    end.

Notation "x <- m ;; k" := (bind m (fun x => k))
  (at level 61, m at next level, right associativity).

(** Running a computation from an empty log. *)
Definition run {A} (m : IO A) : result A * list call := m [].

(* ================================================================= *)
(** ** shared/types.ts: the style catalog *)

Record style_entry : Type := {
  style_id : jsstring;
  style_name : jsstring;
  style_description : jsstring
}.

Definition STYLES : list style_entry :=
  [ {| style_id := lit "lego"; style_name := lit "Lego";
       style_description := lit "Transform into Lego brick style art" |};
    {| style_id := lit "anime"; style_name := lit "Anime";
       style_description := lit "Transform into Japanese anime style" |};
    {| style_id := lit "ghibli"; style_name := lit "Ghibli";
       style_description := lit "Transform into Studio Ghibli style" |};
    {| style_id := lit "futuristic"; style_name := lit "Futuristic";
       style_description := lit "Transform into sci-fi futuristic style" |};
    {| style_id := lit "vintage"; style_name := lit "Vintage";
       style_description := lit "Transform into vintage/retro style" |} ].

(** The object literal [STYLE_PROMPTS], as its own properties in order. *)
Definition STYLE_PROMPTS : list (jsstring * jsstring) :=
  [ (lit "lego",
     lit "Transform this image into a LEGO brick style artwork, with clear plastic brick textures, vibrant primary colors, and the characteristic blocky LEGO aesthetic. Make it look like it was built with actual LEGO bricks.");
    (lit "anime",
     lit "Transform this image into a Japanese anime style illustration with vibrant colors, distinctive facial features like large expressive eyes, simplified details, and smooth outlines. Use the style commonly seen in popular anime.");
    (lit "ghibli",
     lit "Transform this image into a Studio Ghibli style illustration with soft watercolor-like textures, muted pastel colors, delicate details in nature elements, and the dreamlike quality characteristic of Hayao Miyazaki's films.");
    (lit "futuristic",
     lit "Transform this image into a sci-fi futuristic style with holographic elements, neon lighting, sleek metallic surfaces, advanced technology aesthetics, and a high-contrast color scheme dominated by blues and purples.");
    (lit "vintage",
     lit "Transform this image into a vintage/retro style with faded colors, subtle film grain, slightly washed-out contrast, and the aged aesthetic of photographs from the 1960s-70s.") ].

(** The five style identifiers, the union type of [style]. *)
Definition style_ids : list jsstring :=
  [lit "lego"; lit "anime"; lit "ghibli"; lit "futuristic"; lit "vintage"].

(** What a property read [obj[key]] on a plain object of strings gives:
    an own property, a member inherited from [Object.prototype], or
    [undefined]. A property read never throws. *)
Inductive property : Type :=
| Own (value : jsstring)
| Inherited (text : jsstring)
| Undefined.

(** The members every plain object inherits from [Object.prototype], each
    with the text Node gives when it is spliced into a template literal. *)
Definition Object_prototype : list (jsstring * jsstring) :=
  let native (name : jsstring) :=
    lit "function " ++ name ++ lit "() { [native code] }" in
  [ (lit "constructor", native (lit "Object"));
    (lit "__defineGetter__", native (lit "__defineGetter__"));
    (lit "__defineSetter__", native (lit "__defineSetter__"));
    (lit "hasOwnProperty", native (lit "hasOwnProperty"));
    (lit "__lookupGetter__", native (lit "__lookupGetter__"));
    (lit "__lookupSetter__", native (lit "__lookupSetter__"));
    (lit "isPrototypeOf", native (lit "isPrototypeOf"));
    (lit "propertyIsEnumerable", native (lit "propertyIsEnumerable"));
    (lit "toString", native (lit "toString"));
    (lit "valueOf", native (lit "valueOf"));
    (lit "toLocaleString", native (lit "toLocaleString"));
    (lit "__proto__", lit "[object Object]") ].

Fixpoint assoc (key : jsstring) (props : list (jsstring * jsstring))
  : option jsstring :=
  match props with
  | [] => None
  | (k, v) :: rest => if JsString.eqb key k then Some v else assoc key rest
  end.

(** [obj[key]] for an object literal with the own properties [own]. *)
Definition get_property (own : list (jsstring * jsstring)) (key : jsstring)
  : property :=
  match assoc key own with
  | Some v => Own v
  | None =>
      match assoc key Object_prototype with
      | Some text => Inherited text
      | None => Undefined
      end
  end.

(** [`${v}`] for the value of a property read. *)
Definition template_text (v : property) : jsstring :=
  match v with
  | Own s => s
  | Inherited text => text
  | Undefined => lit "undefined"
  end.

(* ================================================================= *)
(** ** server/openai.ts: the transformation pipeline *)

Definition describe_instruction : jsstring :=
  lit "Describe this person and the overall scene in detail "
  ++ [8212]
  ++ lit " include facial features, expression, clothing, posture, and background.".

Definition describe_request (imageBase64 : jsstring) : chat_request :=
  {| chat_model := lit "gpt-4o";
     chat_text := describe_instruction;
     chat_image_url := lit "data:image/jpeg;base64," ++ imageBase64;
     chat_max_tokens := 300 |}.

Definition generate_request (finalPrompt : jsstring) : image_request :=
  {| img_model := lit "dall-e-3";
     img_prompt := finalPrompt;
     img_n := 1;
     img_size := lit "1024x1024";
     img_quality := lit "standard" |}.

(** The separator and the closing instruction of the template literal that
    builds [finalPrompt]. *)
Definition content_separator : jsstring :=
  LF ++ LF ++ lit "Here is the image content to transform:" ++ LF.

Definition closing_instruction : jsstring :=
  LF ++ LF
  ++ lit "Preserve the identity, pose, and scene layout while applying the style.".

Definition finalPrompt_of (stylePrompt : property) (imageDescription : jsstring)
  : jsstring :=
  template_text stylePrompt ++ content_separator ++ imageDescription
  ++ closing_instruction.

(** [visionResponse.choices[0].message.content?.trim()]: reading
    [.message] of a missing first choice throws; a null content gives
    [undefined]. *)
Definition first_description (r : chat_completion) : IO (option jsstring) :=
  match choices r with
  | [] => throw TypeError_undefined_message
  | c :: _ => ret (option_map trim (content c))
  end.

(** [generatedImage.data?.[0]?.url] *)
Definition first_url (r : images_response) : option jsstring :=
  match data r with
  | None => None
  | Some [] => None
  | Some (d :: _) => url d
  end.

(** The body of the [try] block of [transformImage]. *)
Definition transformImage_body (openai : OpenAI)
    (imageBase64 style : jsstring) : IO jsstring :=
  let stylePrompt := get_property STYLE_PROMPTS style in
  let req := describe_request imageBase64 in
  visionResponse <-
    await (ChatCompletionsCreate req) (chat_completions_create openai req) ;;
  imageDescription <- first_description visionResponse ;;
  match imageDescription with
  | None | Some [] =>
      throw (new_Error (lit "Could not generate description from image."))
  | Some imageDescription =>
      let finalPrompt := finalPrompt_of stylePrompt imageDescription in
      let greq := generate_request finalPrompt in
      generatedImage <-
        await (ImagesGenerate greq) (images_generate openai greq) ;;
      match first_url generatedImage with
      | None | Some [] => throw (new_Error (lit "Failed to generate image URL"))
      | Some imageUrl => ret imageUrl
      end
  end.

(** [transformImage]: whatever the body throws is caught and thrown again
    as a fresh [Error] whose message embeds the message of the caught one. *)
Definition transformImage (openai : OpenAI)
    (imageBase64 style : jsstring) : IO jsstring :=
  try_catch (transformImage_body openai imageBase64 style)
    (fun error =>
       throw (new_Error (lit "Failed to transform image: " ++ message error))).

(* ================================================================= *)
(** ** shared/schema.ts: records and validation schemas *)

Module User.
Record t : Type := { id : Z; username : jsstring; password : jsstring }.
End User.

Module InsertUser.
Record t : Type := { username : jsstring; password : jsstring }.
End InsertUser.

Module Image.
Record t : Type := {
  id : Z;
  originalFilename : jsstring;
  originalUrl : jsstring;
  userId : option Z;
  createdAt : jsstring
}.
End Image.

Module InsertImage.
Record t : Type := {
  originalFilename : jsstring;
  originalUrl : jsstring;
  userId : option Z
}.
End InsertImage.

Module Transformation.
Record t : Type := {
  id : Z;
  imageId : Z;
  style : jsstring;
  transformedUrl : jsstring;
  createdAt : jsstring
}.
End Transformation.

Module InsertTransformation.
Record t : Type := {
  imageId : Z;
  style : jsstring;
  transformedUrl : jsstring
}.
End InsertTransformation.

(** The browser [File] as the schema reads it. *)
Record File : Type := { file_size : Z; file_type : jsstring }.

Definition MAX_UPLOAD_BYTES : Z := 5 * 1024 * 1024.

Definition allowed_image_types : list jsstring :=
  [lit "image/jpeg"; lit "image/png"; lit "image/webp"].

(** The two refinements of [imageUploadSchema], in the order they are
    chained, each with its message. A failed refinement records its issue
    and the next one still runs. *)
Definition imageUploadSchema_refinements : list ((File -> bool) * jsstring) :=
  [ (fun file => file_size file <? MAX_UPLOAD_BYTES,
     lit "Image size should not exceed 5MB");
    (fun file => array_includes allowed_image_types (file_type file),
     lit "Please upload a valid image (JPG, PNG, WEBP)") ].

Fixpoint run_refinements {A} (rs : list ((A -> bool) * jsstring)) (x : A)
  : list jsstring :=
  match rs with
  | [] => []
  | (check, msg) :: rs' =>
      if check x then run_refinements rs' x else msg :: run_refinements rs' x
  end.

(** [imageUploadSchema.safeParse({ image })]: the messages of the issues
    found, in order; the parse succeeds when there is none. *)
Definition imageUploadSchema_issues (image : File) : list jsstring :=
  run_refinements imageUploadSchema_refinements image.

Definition imageUploadSchema_accepts (image : File) : bool :=
  match imageUploadSchema_issues image with [] => true | _ :: _ => false end.

(** A value of a JSON request body, as far as the handlers tell values
    apart. *)
Inductive js_value : Type :=
| VUndefined
| VNull
| VBoolean (b : bool)
| VNumber (n : Z)
| VString (s : jsstring).

(** [styleTransformSchema.safeParse({ style })]: the enum accepts the five
    strings and nothing else; [Some s] is a success whose data is the
    string [s], [None] a failure. *)
Definition styleTransformSchema_safeParse (style : js_value)
  : option jsstring :=
  match style with
  | VString s => if array_includes style_ids s then Some s else None
  | _ => None
  end.

(* ================================================================= *)
(** ** server/storage.ts: the in-memory record store *)

(** A [Map] with number keys: its entries in insertion order. Setting a
    key that is present replaces the value in place; a new key goes to the
    end. *)
Module JsMap.
Section WithValue.
Context {V : Type}.

Definition t : Type := list (Z * V).

Definition empty : t := [].

Fixpoint get (m : t) (k : Z) : option V :=
  match m with
  | [] => None
  | (k', v) :: m' => if k' =? k then Some v else get m' k
  end.

Fixpoint set (m : t) (k : Z) (v : V) : t :=
  match m with
  | [] => [(k, v)]
  | (k', v') :: m' =>
      if k' =? k then (k', v) :: m' else (k', v') :: set m' k v
  end.

Definition keys (m : t) : list Z := map fst m.

Definition values (m : t) : list V := map snd m.
End WithValue.
Arguments t V : clear implicits.
End JsMap.

Record MemStorage : Type := {
  users : JsMap.t User.t;
  images : JsMap.t Image.t;
  transformations : JsMap.t Transformation.t;
  userIdCounter : Z;
  imageIdCounter : Z;
  transformationIdCounter : Z
}.

(** [new MemStorage()] *)
Definition MemStorage_new : MemStorage :=
  {| users := JsMap.empty;
     images := JsMap.empty;
     transformations := JsMap.empty;
     userIdCounter := 1;
     imageIdCounter := 1;
     transformationIdCounter := 1 |}.

Definition getUser (s : MemStorage) (id : Z) : option User.t :=
  JsMap.get (users s) id.

Definition getUserByUsername (s : MemStorage) (username : jsstring)
  : option User.t :=
  find (fun user => JsString.eqb (User.username user) username)
       (JsMap.values (users s)).

Definition createUser (s : MemStorage) (insertUser : InsertUser.t)
  : User.t * MemStorage :=
  let id := userIdCounter s in
  let user := {| User.id := id;
                 User.username := InsertUser.username insertUser;
                 User.password := InsertUser.password insertUser |} in
  (user,
   {| users := JsMap.set (users s) id user;
      images := images s;
      transformations := transformations s;
      userIdCounter := id + 1;
      imageIdCounter := imageIdCounter s;
      transformationIdCounter := transformationIdCounter s |}).

Definition getImage (s : MemStorage) (id : Z) : option Image.t :=
  JsMap.get (images s) id.

(** [now] is the text [new Date().toISOString()] gives at the call. *)
Definition createImage (s : MemStorage) (insertImage : InsertImage.t)
    (now : jsstring) : Image.t * MemStorage :=
  let id := imageIdCounter s in
  let image := {| Image.id := id;
                  Image.originalFilename := InsertImage.originalFilename insertImage;
                  Image.originalUrl := InsertImage.originalUrl insertImage;
                  Image.userId := InsertImage.userId insertImage;
                  Image.createdAt := now |} in
  (image,
   {| users := users s;
      images := JsMap.set (images s) id image;
      transformations := transformations s;
      userIdCounter := userIdCounter s;
      imageIdCounter := id + 1;
      transformationIdCounter := transformationIdCounter s |}).

Definition getTransformation (s : MemStorage) (id : Z)
  : option Transformation.t :=
  JsMap.get (transformations s) id.

Definition getTransformationsByImageId (s : MemStorage) (imageId : Z)
  : list Transformation.t :=
  filter (fun transformation => Transformation.imageId transformation =? imageId)
         (JsMap.values (transformations s)).

Definition createTransformation (s : MemStorage)
    (insertTransformation : InsertTransformation.t) (now : jsstring)
  : Transformation.t * MemStorage :=
  let id := transformationIdCounter s in
  let transformation :=
    {| Transformation.id := id;
       Transformation.imageId := InsertTransformation.imageId insertTransformation;
       Transformation.style := InsertTransformation.style insertTransformation;
       Transformation.transformedUrl :=
         InsertTransformation.transformedUrl insertTransformation;
       Transformation.createdAt := now |} in
  (transformation,
   {| users := users s;
      images := images s;
      transformations := JsMap.set (transformations s) id transformation;
      userIdCounter := userIdCounter s;
      imageIdCounter := imageIdCounter s;
      transformationIdCounter := id + 1 |}).

(** *** Histories of the store

    The store only changes through its three create methods. A history is
    the sequence of creations made on a fresh store; running it gives the
    store reached and the records the calls returned, per kind, in the
    order of the calls. *)
Inductive creation : Type :=
| CreateUser (insertUser : InsertUser.t)
| CreateImage (insertImage : InsertImage.t) (now : jsstring)
| CreateTransformation (insertTransformation : InsertTransformation.t)
    (now : jsstring).

Record created : Type := {
  created_users : list User.t;
  created_images : list Image.t;
  created_transformations : list Transformation.t
}.

Definition nothing_created : created :=
  {| created_users := []; created_images := [];
     created_transformations := [] |}.

Definition step (st : MemStorage * created) (c : creation)
  : MemStorage * created :=
  let (s, r) := st in
  match c with
  | CreateUser u =>
      let (user, s') := createUser s u in
      (s', {| created_users := created_users r ++ [user];
              created_images := created_images r;
              created_transformations := created_transformations r |})
  | CreateImage i now =>
      let (image, s') := createImage s i now in
      (s', {| created_users := created_users r;
              created_images := created_images r ++ [image];
              created_transformations := created_transformations r |})
  | CreateTransformation t now =>
      let (transformation, s') := createTransformation s t now in
      (s', {| created_users := created_users r;
              created_images := created_images r;
              created_transformations :=
                created_transformations r ++ [transformation] |})
  end.

Definition run_history (h : list creation) : MemStorage * created :=
  fold_left step h (MemStorage_new, nothing_created).

(** The identifiers 1, 2, ..., n. *)
Definition first_ids (n : nat) : list Z := map Z.of_nat (seq 1 n).

(** *** What a history leaves in the store *)

Section TableOf.
(** One table of the store: the records are of type [V] and [idof]
    reads their identifier. *)
Context {V : Type} (idof : V -> Z).

(** The entries a table holds once the records [l] have been created in
    that order. *)
Definition entries_of (l : list V) : JsMap.t V :=
  map (fun v => (idof v, v)) l.

(** The table [m] with counter [counter] is what creating [l] leaves. *)
Definition table_of (m : JsMap.t V) (counter : Z) (l : list V) : Prop :=
  m = entries_of l
  /\ map idof l = first_ids (List.length l)
  /\ counter = Z.of_nat (List.length l) + 1.
End TableOf.

(** The store a history leads to holds, per kind, exactly the records the
    history created, under the identifiers 1, 2, ... in the order of their
    creation, and its counters are one past the number created. *)
Definition store_of (s : MemStorage) (r : created) : Prop :=
  table_of User.id (users s) (userIdCounter s) (created_users r)
  /\ table_of Image.id (images s) (imageIdCounter s) (created_images r)
  /\ table_of Transformation.id (transformations s)
       (transformationIdCounter s) (created_transformations r).

(** The identifiers of a kind are sequential: they are 1, 2, ..., N in
    this order, hence distinct and strictly increasing. *)
Definition sequential (ids : list Z) : Prop :=
  ids = first_ids (List.length ids)
  /\ NoDup ids
  /\ StronglySorted Z.lt ids.

(** What is asked of one kind of record, with [made] the records its
    create method returned, in the order of the calls, and [get] its
    lookup on the store reached: the identifiers handed out are
    sequential, every record made is found under its identifier, and an
    identifier that was never handed out is absent. *)
Definition kind_as_specified {V : Type} (idof : V -> Z)
    (get : Z -> option V) (made : list V) : Prop :=
  sequential (map idof made)
  /\ (forall v, In v made -> get (idof v) = Some v)
  /\ (forall id, ~ In id (map idof made) -> get id = None).

Definition is_CreateUser (c : creation) : bool :=
  match c with CreateUser _ => true | _ => false end.

Definition is_CreateImage (c : creation) : bool :=
  match c with CreateImage _ _ => true | _ => false end.

Definition is_CreateTransformation (c : creation) : bool :=
  match c with CreateTransformation _ _ => true | _ => false end.

(* ================================================================= *)
(** ** Base64, as [Buffer.prototype.toString("base64")] produces it *)

Module Base64.

Definition alphabet : jsstring :=
  lit "ABCDEFGHIJKLMNOPQRSTUVWXYZabcdefghijklmnopqrstuvwxyz0123456789+/".

Definition pad : code_unit := 61.

(** The character of a 6-bit group. *)
Definition char_of (sextet : Z) : code_unit :=
  nth (Z.to_nat sextet) alphabet pad.

Fixpoint index_of (c : code_unit) (table : jsstring) (i : Z) : option Z :=
  match table with
  | [] => None
  | a :: table' => if a =? c then Some i else index_of c table' (i + 1)
  end.

(** The 6-bit group of a character of the alphabet. *)
Definition sextet_of (c : code_unit) : option Z := index_of c alphabet 0.

Definition is_byte (b : Z) : Prop := 0 <= b < 256.

(** The four 6-bit groups of three bytes. *)
Definition sextet0 (b0 : Z) : Z := Z.shiftr b0 2.
Definition sextet1 (b0 b1 : Z) : Z :=
  Z.lor (Z.shiftl (Z.land b0 3) 4) (Z.shiftr b1 4).
Definition sextet2 (b1 b2 : Z) : Z :=
  Z.lor (Z.shiftl (Z.land b1 15) 2) (Z.shiftr b2 6).
Definition sextet3 (b2 : Z) : Z := Z.land b2 63.

(** Three bytes give four characters; a last group of one or two bytes
    is filled with zero bits and padded with [=]. *)
Fixpoint encode (bytes : list Z) : jsstring :=
  match bytes with
  | [] => []
  | [b0] =>
      [ char_of (sextet0 b0); char_of (sextet1 b0 0); pad; pad ]
  | [b0; b1] =>
      [ char_of (sextet0 b0); char_of (sextet1 b0 b1);
        char_of (sextet2 b1 0); pad ]
  | b0 :: b1 :: b2 :: rest =>
      [ char_of (sextet0 b0); char_of (sextet1 b0 b1);
        char_of (sextet2 b1 b2); char_of (sextet3 b2) ]
      ++ encode rest
  end.

Definition byte0 (s0 s1 : Z) : Z := Z.lor (Z.shiftl s0 2) (Z.shiftr s1 4).
Definition byte1 (s1 s2 : Z) : Z :=
  Z.lor (Z.shiftl (Z.land s1 15) 4) (Z.shiftr s2 2).
Definition byte2 (s2 s3 : Z) : Z := Z.lor (Z.shiftl (Z.land s2 3) 6) s3.

(** The decoder of RFC 4648 for padded input: four characters give three
    bytes, padding is only accepted in the last group. It is what the
    round trip of an encoded upload is stated with. *)
Fixpoint decode (s : jsstring) : option (list Z) :=
  match s with
  | [] => Some []
  | c0 :: c1 :: c2 :: c3 :: rest =>
      match sextet_of c0, sextet_of c1 with
      | Some s0, Some s1 =>
          if (c2 =? pad) && (c3 =? pad) then
            match rest with
            | [] => Some [byte0 s0 s1]
            | _ :: _ => None
            end
          else
            match sextet_of c2 with
            | Some s2 =>
                if c3 =? pad then
                  match rest with
                  | [] => Some [byte0 s0 s1; byte1 s1 s2]
                  | _ :: _ => None
                  end
                else
                  match sextet_of c3 with
                  | Some s3 =>
                      option_map
                        (fun tail =>
                           byte0 s0 s1 :: byte1 s1 s2 :: byte2 s2 s3 :: tail)
                        (decode rest)
                  | None => None
                  end
            | None => None
            end
      | _, _ => None
      end
  | _ => None
  end.

(** *** Exhaustive checks over bytes and 6-bit groups *)

Definition all_below (n : nat) : list Z := map Z.of_nat (seq 0 n).

Definition is_sextet (s : Z) : bool := (0 <=? s) && (s <? 64).

(** A 6-bit group is read back from its character, which is not the
    padding character. *)
Definition char_check (s : Z) : bool :=
  match sextet_of (char_of s) with
  | Some s' => (s' =? s) && negb (char_of s =? pad)
  | None => false
  end.

(** One byte: its outer groups are 6 bits wide, and its halves, cut
    after 4 or after 2 bits, give it back. *)
Definition byte_check (b : Z) : bool :=
  is_sextet (sextet0 b) && is_sextet (sextet3 b)
  && (Z.lor (Z.shiftl (Z.shiftr b 4) 4) (Z.land b 15) =? b)
  && (Z.lor (Z.shiftl (Z.shiftr b 6) 6) (Z.land b 63) =? b).

(** Two neighbouring bytes: the group that straddles them after 6 bits
    and the one that straddles them after 12 bits. *)
Definition pair_check (a b : Z) : bool :=
  is_sextet (sextet1 a b) && is_sextet (sextet2 a b)
  && (byte0 (sextet0 a) (sextet1 a b) =? a)
  && (Z.land (sextet1 a b) 15 =? Z.shiftr b 4)
  && (Z.shiftr (sextet2 a b) 2 =? Z.land a 15)
  && (Z.land (sextet2 a b) 3 =? Z.shiftr b 6).

End Base64.

(* ================================================================= *)
(** ** server/routes.ts: the HTTP surface *)

(** The JSON bodies the routes send. *)
Inductive response_body : Type :=
| MessageJson (message : jsstring)
| UploadJson (imageBase64 originalName : jsstring)
| TransformJson (transformedImageUrl : jsstring).

Record response : Type := { status : Z; body : response_body }.

Definition json (status : Z) (body : response_body) : response :=
  {| status := status; body := body |}.

(** *** The multer upload middleware

    A file part of a multipart form: the name and the content type its
    headers declare, and the bytes of its body. *)
Record file_part : Type := {
  part_originalname : jsstring;
  part_mimetype : jsstring;
  part_content : list Z
}.

(** [req.file] as the memory storage of multer fills it. *)
Record multer_file : Type := {
  originalname : jsstring;
  mimetype : jsstring;
  buffer : list Z;
  size : Z
}.

(** [limits.fileSize] of the configuration. *)
Definition limits_fileSize : Z := 5 * 1024 * 1024.

(** The [fileFilter] of the configuration: [inl e] is [cb(e)], [inr true]
    is [cb(null, true)]. *)
Definition fileFilter (file : file_part) : js_error + bool :=
  if negb (startsWith (part_mimetype file) (lit "image/")) then
    inl (new_Error (lit "Only image files are allowed"))
  else if negb (array_includes allowed_image_types (part_mimetype file)) then
    inl (new_Error (lit "Please upload a valid image (JPG, PNG, WEBP)"))
  else inr true.

(** The error multer raises when a file body reaches [limits.fileSize]
    (its code is LIMIT_FILE_SIZE). *)
Definition LIMIT_FILE_SIZE : js_error := new_Error (lit "File too large").

(** [upload.single("image")] on the part the form has in its field
    [image], if any. multer is a library outside these sources; the
    behaviour of the release the application runs on (multer 1.4.5-lts, on
    busboy 1.x) is followed: the file filter is asked when the headers of
    the part arrive, before any of its body is read; the body of an accepted
    part is then read into memory, and the limit is raised as soon as the
    number of bytes read reaches [limits.fileSize], so that a body gets
    through only when it is strictly shorter. An error goes to the next
    error handler of the application ([inl]); otherwise the request goes
    on with [req.file] set or left undefined ([inr]). *)
Definition upload_single (image : option file_part)
  : js_error + option multer_file :=
  match image with
  | None => inr None
  | Some part =>
      match fileFilter part with
      | inl e => inl e
      | inr false => inr None
      | inr true =>
          if limits_fileSize <=? Z.of_nat (List.length (part_content part)) then
            inl LIMIT_FILE_SIZE
          else
            inr (Some {| originalname := part_originalname part;
                         mimetype := part_mimetype part;
                         buffer := part_content part;
                         size := Z.of_nat (List.length (part_content part)) |})
      end
  end.

(** The [File] the browser would hold for a part: its size is the number
    of bytes of the content, its type the declared content type. *)
Definition file_of_part (part : file_part) : File :=
  {| file_size := Z.of_nat (List.length (part_content part));
     file_type := part_mimetype part |}.

(** The reasons the server gives for a content type it does not take. *)
Definition type_reasons : list jsstring :=
  [lit "Only image files are allowed";
   lit "Please upload a valid image (JPG, PNG, WEBP)"].

(** What a request ends in: a response of the route, or an error handed
    to the error handling of the application, which is not part of these
    sources. *)
Inductive handled : Type :=
| Responded (r : response)
| NextError (e : js_error).

(** The handler of POST /api/upload, after the middleware. *)
Definition upload_handler (file : option multer_file) : response :=
  match file with
  | None => json 400 (MessageJson (lit "No image file uploaded"))
  | Some file =>
      let imageBase64 := Base64.encode (buffer file) in
      json 200 (UploadJson imageBase64 (originalname file))
  end.

(** POST /api/upload *)
Definition post_api_upload (image : option file_part) : handled :=
  match upload_single image with
  | inl e => NextError e
  | inr file => Responded (upload_handler file)
  end.

(** The body of a POST /api/transform request: [style] is any JSON value,
    [imageBase64] is a string or absent. *)
Record transform_body : Type := {
  body_style : js_value;
  body_imageBase64 : option jsstring
}.

(** [error.message || "Failed to transform image"] *)
Definition message_or (e : js_error) (fallback : jsstring) : jsstring :=
  if truthy (message e) then message e else fallback.

(** POST /api/transform *)
Definition post_api_transform (openai : OpenAI) (req_body : transform_body)
  : IO response :=
  try_catch
    (match styleTransformSchema_safeParse (body_style req_body) with
     | None => ret (json 400 (MessageJson (lit "Invalid style selected")))
     | Some style =>
         match body_imageBase64 req_body with
         | None | Some [] =>
             ret (json 400 (MessageJson (lit "No image data provided")))
         | Some imageBase64 =>
             transformedImageUrl <- transformImage openai imageBase64 style ;;
             ret (json 200 (TransformJson transformedImageUrl))
         end
     end)
    (fun error =>
       ret (json 500
              (MessageJson (message_or error (lit "Failed to transform image"))))).

(** GET /api/styles *)
Definition get_api_styles : list style_entry := STYLES.

(* ================================================================= *)
(** ** client ImageUploader: the check made before a file is sent *)

(** [validateFile]: [Some msg] is the error message, [None] is null. *)
Definition validateFile (file : File) : option jsstring :=
  if negb (array_includes allowed_image_types (file_type file)) then
    Some (lit "Please upload a valid image (JPG, PNG, WEBP)")
  else if file_size file >? 5 * 1024 * 1024 then
    Some (lit "Image size should not exceed 5MB")
  else None.

(* ================================================================= *)
(** ** Test doubles and failure stages of the pipeline *)

(** A client whose two capabilities answer the same whatever they are
    asked. *)
Definition stub_openai (described : outcome chat_completion)
    (generated : outcome images_response) : OpenAI :=
  {| chat_completions_create := fun _ => described;
     images_generate := fun _ => generated |}.

(** A completion with one choice. *)
Definition completion_of (description : option jsstring) : chat_completion :=
  {| choices := [ {| content := description |} ] |}.

(** A generation response with one image. *)
Definition generated_at (imageUrl : jsstring) : images_response :=
  {| data := Some [ {| url := Some imageUrl |} ] |}.

(** The first choice of the completion carries no usable description:
    its content is null, or is empty once trimmed. *)
Definition no_description (c : chat_choice) : Prop :=
  match content c with
  | None => True
  | Some d => trim d = []
  end.

(** The two external calls of the pipeline. *)
Inductive stage : Type := Describing | Generating.

(** The external call of the given stage is reached and rejects with [e]:
    either the description call rejects, or it resolves with a usable
    description and the generation call, on the prompt built from it,
    rejects. *)
Definition fails_at (openai : OpenAI) (imageBase64 style : jsstring)
    (st : stage) (e : js_error) : Prop :=
  match st with
  | Describing =>
      chat_completions_create openai (describe_request imageBase64) = Rejected e
  | Generating =>
      exists completion c rest desc,
        chat_completions_create openai (describe_request imageBase64)
          = Resolved completion
        /\ choices completion = c :: rest
        /\ content c = Some desc
        /\ trim desc <> []
        /\ images_generate openai
             (generate_request
                (finalPrompt_of (get_property STYLE_PROMPTS style) (trim desc)))
           = Rejected e
  end.

(** The calls the pipeline has made when it fails at a stage. *)
Definition calls_until (imageBase64 : jsstring) (st : stage)
    (finalPrompt : jsstring) : list call :=
  match st with
  | Describing => [ChatCompletionsCreate (describe_request imageBase64)]
  | Generating => [ChatCompletionsCreate (describe_request imageBase64);
                   ImagesGenerate (generate_request finalPrompt)]
  end.

(* ================================================================= *)
(** ** server/gemini.ts: the pipeline with Gemini as describer *)

(** Code that throws and calls out, over any kind of logged call. *)
Section Logged.
Context {E : Type}.

Definition Logged (A : Type) : Type := list E -> result A * list E.

Definition lret {A} (a : A) : Logged A := fun log => (Ok a, log).

Definition lthrow {A} (e : js_error) : Logged A := fun log => (Throw e, log).

Definition lbind {A B} (m : Logged A) (k : A -> Logged B) : Logged B :=
  fun log =>
    match m log with
    | (Ok a, log') => k a log'
    | (Throw e, log') => (Throw e, log')
    end.

Definition ltry {A} (body : Logged A) (handler : js_error -> Logged A)
  : Logged A :=
  fun log =>
    match body log with
    | (Ok a, log') => (Ok a, log')
    | (Throw e, log') => handler e log'
    end.

Definition lawait {A} (c : E) (o : outcome A) : Logged A :=
  fun log =>
    match o with
    | Resolved a => (Ok a, log ++ [c])
    | Rejected e => (Throw e, log ++ [c])
    end.

Definition lrun {A} (m : Logged A) : result A * list E := m [].
End Logged.
Arguments Logged E A : clear implicits.

Notation "x <~ m ;; k" := (lbind m (fun x => k))
  (at level 61, m at next level, right associativity).

Module Gemini.

(** The argument of [model.generateContent]: the model it was obtained
    for, the first part (the value read from [STYLE_PROMPTS]) and the
    inline image part. *)
Record content_request : Type := {
  gc_model : jsstring;
  gc_prompt : property;
  gc_data : jsstring;
  gc_mimeType : jsstring
}.

(** What [generateContent] resolves with; [response.text()] gives the text
    or throws. *)
Record content_result : Type := { response_text : result jsstring }.

(** The two clients of the module. *)
Record Clients : Type := {
  generateContent : content_request -> outcome content_result;
  openai : OpenAI
}.

Inductive gcall : Type :=
| GenerateContent (r : content_request)
| DalleGenerate (r : image_request).

Definition is_dalle (c : gcall) : bool :=
  match c with DalleGenerate _ => true | GenerateContent _ => false end.

Definition content_request_of (imageBase64 style : jsstring)
  : content_request :=
  {| gc_model := lit "gemini-1.5-flash";
     gc_prompt := get_property STYLE_PROMPTS style;
     gc_data := imageBase64;
     gc_mimeType := lit "image/jpeg" |}.

(** The template literal that builds the generation prompt: the
    description, then the style. *)
Definition dalle_prompt (description : jsstring) (prompt : property)
  : jsstring :=
  description ++ LF ++ LF ++ lit "Using the style: " ++ template_text prompt.

Definition transformImageWithGemini (c : Clients)
    (imageBase64 style : jsstring) : Logged gcall jsstring :=
  ltry
    (let prompt := get_property STYLE_PROMPTS style in
     let req := content_request_of imageBase64 style in
     result <~ lawait (GenerateContent req) (generateContent c req) ;;
     description <~
       match response_text result with
       | Ok text => lret text
       | Throw e => lthrow e
       end ;;
     let greq := generate_request (dalle_prompt description prompt) in
     generatedImage <~
       lawait (DalleGenerate greq) (images_generate (openai c) greq) ;;
     match first_url generatedImage with
     | None | Some [] => lthrow (new_Error (lit "Failed to generate image URL"))
     | Some imageUrl => lret imageUrl
     end)
    (fun error =>
       lthrow (new_Error (lit "Failed to transform image with Gemini: "
                          ++ message error))).

(** Clients that answer the same whatever they are asked. *)
Definition stub_clients (described : outcome content_result)
    (generated : outcome images_response) : Clients :=
  {| generateContent := fun _ => described;
     openai := stub_openai (Resolved (completion_of None)) generated |}.

End Gemini.

(* ================================================================= *)
(** ** client: from the upload to the transformation request *)

(** [s.split(sep)] for a separator of one code unit: the pieces between
    the separators, at least one. *)
Fixpoint split (sep : code_unit) (s : jsstring) : list jsstring :=
  match s with
  | [] => [[]]
  | c :: s' =>
      if c =? sep then [] :: split sep s'
      else match split sep s' with
           | [] => [[c]]
           | piece :: pieces => (c :: piece) :: pieces
           end
  end.

Definition COMMA : code_unit := 44.

(** The data URL the uploader builds when the upload has succeeded:
    [`data:${file.type};base64,${data.imageBase64}`]. *)
Definition dataUrl_of (file_type imageBase64 : jsstring) : jsstring :=
  lit "data:" ++ file_type ++ lit ";base64," ++ imageBase64.

(** The variables the workspace hands to its transform mutation;
    [imageBase64] is undefined when the data URL has no second piece. *)
Record transform_variables : Type := {
  var_style : jsstring;
  var_imageBase64 : option jsstring
}.

(** [handleTransform] of the workspace, on the selected style (null, or a
    string) and the data URL of the original image (null when there is no
    image): the variables of the mutation it starts, or [None] when it
    returns without starting one. *)
Definition handleTransform (selectedStyle : option jsstring)
    (originalImage_dataUrl : option jsstring) : option transform_variables :=
  match selectedStyle, originalImage_dataUrl with
  | Some (c :: style), Some dataUrl =>
      let base64Data := nth_error (split COMMA dataUrl) 1 in
      Some {| var_style := c :: style; var_imageBase64 := base64Data |}
  | _, _ => None
  end.

(** What [onDrop] of the uploader does with the files it is given. *)
Inductive drop_action : Type :=
| DoNothing
| ReportError (message : jsstring)
| StartUpload (file : File).

(** [onDrop]: only the first file counts; it is checked, and uploaded when
    the check finds nothing. *)
Definition onDrop (acceptedFiles : list File) : drop_action :=
  match acceptedFiles with
  | [] => DoNothing
  | file :: _ =>
      match validateFile file with
      | Some (c :: error) => ReportError (c :: error)
      | Some [] | None => StartUpload file
      end
  end.

(** The table of [getStyleGradient]. *)
Definition gradients : list (jsstring * jsstring) :=
  [ (lit "lego", lit "from-yellow-500 to-red-500");
    (lit "anime", lit "from-blue-400 to-purple-500");
    (lit "ghibli", lit "from-green-400 to-teal-500");
    (lit "futuristic", lit "from-blue-600 to-indigo-700");
    (lit "vintage", lit "from-amber-300 to-orange-400") ].

(** [getStyleGradient]: [gradients[styleId] || fallback]. An empty string
    and [undefined] are falsy; an inherited member is an object and is
    returned as it is. *)
Definition getStyleGradient (styleId : jsstring) : property :=
  match get_property gradients styleId with
  | Own [] | Undefined => Own (lit "from-gray-400 to-gray-600")
  | v => v
  end.

(** ** Predicates used to state the properties *)

(** Every code unit of the string is white space. *)
Definition all_white_space (s : jsstring) : bool :=
  forallb is_white_space s.

(** The string has no comma. *)
Definition comma_free (s : jsstring) : bool :=
  forallb (fun c => negb (c =? COMMA)) s.

(** A character of the base64 alphabet or the padding character. *)
Definition is_base64_char (c : code_unit) : bool :=
  match Base64.sextet_of c with
  | Some _ => true
  | None => c =? Base64.pad
  end.

(** The character of a 6-bit group is a base64 character and no comma. *)
Definition base64_char_check (s : Z) : bool :=
  is_base64_char (Base64.char_of s) && negb (Base64.char_of s =? COMMA).

(** The store and the records reached when the history [h] goes on from a
    store [s] with the records [r] made so far. *)
Definition continue_history (st : MemStorage * created) (h : list creation)
  : MemStorage * created :=
  fold_left step h st.

(* ================================================================= *)
(** * Properties *)

(** ** Strings *)

Lemma eqb_spec (s t : jsstring) : reflect (s = t) (JsString.eqb s t).
Proof.
  revert t; induction s as [|a s IH]; intros [|b t]; simpl;
    try (constructor; congruence).
  destruct (Z.eqb_spec a b) as [->|Hab]; simpl.
  - destruct (IH t) as [->|Hst]; constructor; congruence.
  - constructor; congruence.
Qed.

Lemma eqb_eq (s t : jsstring) : JsString.eqb s t = true <-> s = t.
Proof. destruct (eqb_spec s t); split; congruence. Qed.

Lemma eqb_neq (s t : jsstring) : JsString.eqb s t = false <-> s <> t.
Proof. destruct (eqb_spec s t); split; congruence. Qed.

Lemma array_includes_In (arr : list jsstring) (s : jsstring) :
  array_includes arr s = true <-> In s arr.
Proof.
  unfold array_includes. rewrite existsb_exists. split.
  - intros (t & Hin & Heq). apply eqb_eq in Heq. now subst.
  - intros Hin. exists s. split; [assumption | now apply eqb_eq].
Qed.

Lemma array_includes_not_In (arr : list jsstring) (s : jsstring) :
  array_includes arr s = false <-> ~ In s arr.
Proof.
  rewrite <- array_includes_In. destruct (array_includes arr s); split;
    congruence.
Qed.

Lemma assoc_not_In (key : jsstring) (props : list (jsstring * jsstring)) :
  ~ In key (map fst props) -> assoc key props = None.
Proof.
  induction props as [|[k v] props IH]; simpl; intros Hnot; [reflexivity|].
  destruct (eqb_spec key k) as [->|Hne].
  - exfalso. apply Hnot. now left.
  - apply IH. intros Hin. apply Hnot. now right.
Qed.

(** ** The transformation pipeline *)

Lemma style_ids_are_keys : map fst STYLE_PROMPTS = style_ids.
Proof. reflexivity. Qed.

(** Every style identifier has a template of its own, and it is not
    empty. *)
Lemma style_has_template (style : jsstring) :
  In style style_ids ->
  exists template,
    get_property STYLE_PROMPTS style = Own template /\ template <> [].
Proof.
  intros Hin. simpl in Hin.
  repeat (destruct Hin as [<-|Hin];
          [eexists; split; [reflexivity | discriminate]|]).
  destruct Hin.
Qed.

(** A string that is no style identifier has no template of its own. *)
Lemma other_style_has_no_template (style : jsstring) :
  ~ In style style_ids ->
  forall template, get_property STYLE_PROMPTS style <> Own template.
Proof.
  intros Hnot template. unfold get_property.
  rewrite assoc_not_In by (now rewrite style_ids_are_keys).
  destruct (assoc style Object_prototype); discriminate.
Qed.

(** Reduction of the monad operations, leaving the strings alone. *)
Ltac io_simpl :=
  cbv beta iota zeta fix
    delta [run try_catch bind await throw ret first_description app
           option_map calls_until].

(** The pipeline starts with the description call, whatever the style. *)
Lemma transformImage_describes_first (openai : OpenAI)
    (imageBase64 style : jsstring) :
  exists r rest,
    run (transformImage openai imageBase64 style)
    = (r, ChatCompletionsCreate (describe_request imageBase64) :: rest).
Proof.
  unfold transformImage, transformImage_body. io_simpl.
  destruct (chat_completions_create openai (describe_request imageBase64))
    as [completion|e]; [|io_simpl; eauto].
  destruct (choices completion) as [|c rest]; io_simpl; [eauto|].
  destruct (content c) as [desc|]; io_simpl; [|eauto].
  destruct (trim desc) as [|a d]; io_simpl; [eauto|].
  destruct (images_generate openai _) as [generated|e]; io_simpl; [|eauto].
  destruct (first_url generated) as [[|u us]|]; io_simpl; eauto.
Qed.

(** What the pipeline does once the description call has resolved with a
    usable description: one generation call, on the prompt built from the
    style's property and the trimmed description. *)
Lemma transformImage_described (openai : OpenAI)
    (imageBase64 style : jsstring) completion c rest desc :
  chat_completions_create openai (describe_request imageBase64)
    = Resolved completion ->
  choices completion = c :: rest ->
  content c = Some desc ->
  trim desc <> [] ->
  let finalPrompt :=
    finalPrompt_of (get_property STYLE_PROMPTS style) (trim desc) in
  run (transformImage openai imageBase64 style)
  = match images_generate openai (generate_request finalPrompt) with
    | Resolved generated =>
        match first_url generated with
        | None | Some [] =>
            (Throw (new_Error (lit "Failed to transform image: "
                               ++ lit "Failed to generate image URL")),
             calls_until imageBase64 Generating finalPrompt)
        | Some imageUrl =>
            (Ok imageUrl, calls_until imageBase64 Generating finalPrompt)
        end
    | Rejected e =>
        (Throw (new_Error (lit "Failed to transform image: " ++ message e)),
         calls_until imageBase64 Generating finalPrompt)
    end.
Proof.
  intros Hchat Hchoices Hcontent Htrim finalPrompt.
  unfold transformImage, transformImage_body. io_simpl.
  rewrite Hchat. io_simpl. rewrite Hchoices. io_simpl. rewrite Hcontent.
  io_simpl. fold finalPrompt.
  destruct (trim desc) as [|a d] eqn:Hd; [congruence|]. io_simpl.
  destruct (images_generate openai (generate_request finalPrompt))
    as [generated|e]; io_simpl; [|reflexivity].
  destruct (first_url generated) as [[|u us]|]; reflexivity.
Qed.

(** What the pipeline does when the first choice of the completion
    carries no usable description. *)
Lemma transformImage_undescribed (openai : OpenAI)
    (imageBase64 style : jsstring) completion c rest :
  chat_completions_create openai (describe_request imageBase64)
    = Resolved completion ->
  choices completion = c :: rest ->
  no_description c ->
  run (transformImage openai imageBase64 style)
  = (Throw (new_Error (lit "Failed to transform image: "
                       ++ lit "Could not generate description from image.")),
     [ChatCompletionsCreate (describe_request imageBase64)]).
Proof.
  intros Hchat Hchoices Hnone.
  unfold transformImage, transformImage_body. io_simpl.
  rewrite Hchat. io_simpl. rewrite Hchoices. io_simpl.
  unfold no_description in Hnone.
  destruct (content c) as [desc|]; io_simpl; [|reflexivity].
  rewrite Hnone. reflexivity.
Qed.

(** C1 (as amended). For every image, every style identifier of the
    catalog, every description whose trimmed text is not empty and every
    non-empty URL: when the description call resolves with that description
    as its first choice and the generation call, on the prompt built from
    it, resolves with that URL as its first image, [transformImage] returns
    exactly that URL after exactly two calls, and the prompt of the single
    generation call is the style's template, then the separator introducing
    the image content, then the trimmed description, then the closing
    instruction. *)
Theorem transformImage_returns_generated_url (openai : OpenAI)
    (imageBase64 style desc imageUrl : jsstring)
    completion c rest generated :
  In style style_ids ->
  chat_completions_create openai (describe_request imageBase64)
    = Resolved completion ->
  choices completion = c :: rest ->
  content c = Some desc ->
  trim desc <> [] ->
  images_generate openai
    (generate_request
       (finalPrompt_of (get_property STYLE_PROMPTS style) (trim desc)))
    = Resolved generated ->
  first_url generated = Some imageUrl ->
  imageUrl <> [] ->
  exists template,
    assoc style STYLE_PROMPTS = Some template
    /\ template <> []
    /\ run (transformImage openai imageBase64 style)
       = (Ok imageUrl,
          [ChatCompletionsCreate (describe_request imageBase64);
           ImagesGenerate
             (generate_request
                (template ++ content_separator ++ trim desc
                          ++ closing_instruction))]).
Proof.
  intros Hstyle Hchat Hchoices Hcontent Htrim Hgen Hurl Hnonempty.
  destruct (style_has_template style Hstyle) as (template & Hown & Hne).
  exists template.
  assert (Hassoc : assoc style STYLE_PROMPTS = Some template).
  { unfold get_property in Hown.
    destruct (assoc style STYLE_PROMPTS) as [t|].
    - now inversion Hown.
    - destruct (assoc style Object_prototype); discriminate. }
  repeat split; try assumption.
  rewrite (transformImage_described openai imageBase64 style
             completion c rest desc Hchat Hchoices Hcontent Htrim).
  rewrite Hgen, Hurl, Hown.
  destruct imageUrl as [|u us]; [congruence|]. reflexivity.
Qed.

(** The hypotheses of C1 hold, and its conclusion is reached, on the
    scenario of the specification: the anime style, a description stub
    answering "a smiling person outdoors", a generation stub answering a
    fixed URL. *)
Lemma transformImage_returns_generated_url_witness :
  let openai :=
    stub_openai (Resolved (completion_of (Some (lit "a smiling person outdoors"))))
                (Resolved (generated_at (lit "https://img.example/1.png"))) in
  exists template,
    assoc (lit "anime") STYLE_PROMPTS = Some template
    /\ template <> []
    /\ run (transformImage openai (lit "AAEC") (lit "anime"))
       = (Ok (lit "https://img.example/1.png"),
          [ChatCompletionsCreate (describe_request (lit "AAEC"));
           ImagesGenerate
             (generate_request
                (template ++ content_separator
                          ++ trim (lit "a smiling person outdoors")
                          ++ closing_instruction))]).
Proof.
  intros openai.
  apply (transformImage_returns_generated_url openai (lit "AAEC") (lit "anime")
           (lit "a smiling person outdoors") (lit "https://img.example/1.png")
           (completion_of (Some (lit "a smiling person outdoors")))
           {| content := Some (lit "a smiling person outdoors") |} []
           (generated_at (lit "https://img.example/1.png"))).
  - simpl. tauto.
  - reflexivity.
  - reflexivity.
  - reflexivity.
  - vm_compute. discriminate.
  - reflexivity.
  - reflexivity.
  - vm_compute. discriminate.
Defined.

(** C1 as written fails on a description that is not empty but is all
    white space: the description stub answers a single space, the
    generation stub would answer a URL, and the pipeline fails without
    asking for an image. *)
Lemma transformImage_blank_description_fails :
  let openai :=
    stub_openai (Resolved (completion_of (Some (lit " "))))
                (Resolved (generated_at (lit "https://img.example/1.png"))) in
  lit " " <> []
  /\ In (lit "anime") style_ids
  /\ (forall r, images_generate openai r
                = Resolved (generated_at (lit "https://img.example/1.png")))
  /\ run (transformImage openai (lit "AAEC") (lit "anime"))
     = (Throw (new_Error
                 (lit "Failed to transform image: Could not generate description from image.")),
        [ChatCompletionsCreate (describe_request (lit "AAEC"))]).
Proof.
  intros openai. split; [discriminate|]. split; [simpl; tauto|].
  split; [reflexivity|]. vm_compute. reflexivity.
Qed.

(** C2 (as amended). Whenever the description call resolves with a reply
    that has a first choice, and the content of that choice is missing
    (null) or empty (or blank), [transformImage] fails with the error of
    the unavailable description, and the only call made is the description
    call: the generation capability is never invoked. *)
Theorem transformImage_description_unavailable (openai : OpenAI)
    (imageBase64 style : jsstring) completion c rest :
  chat_completions_create openai (describe_request imageBase64)
    = Resolved completion ->
  choices completion = c :: rest ->
  no_description c ->
  fst (run (transformImage openai imageBase64 style))
  = Throw (new_Error
             (lit "Failed to transform image: Could not generate description from image."))
  /\ snd (run (transformImage openai imageBase64 style))
     = [ChatCompletionsCreate (describe_request imageBase64)]
  /\ existsb is_generate (snd (run (transformImage openai imageBase64 style)))
     = false.
Proof.
  intros Hchat Hchoices Hnone.
  rewrite (transformImage_undescribed openai imageBase64 style
             completion c rest Hchat Hchoices Hnone).
  repeat split.
Qed.

(** C2 at an empty description and at a missing one, with a generation
    stub that would have answered. *)
Lemma transformImage_description_unavailable_witness :
  let gen := Resolved (generated_at (lit "https://img.example/1.png")) in
  let failure :=
    Throw (new_Error
             (lit "Failed to transform image: Could not generate description from image.")) in
  (fst (run (transformImage (stub_openai (Resolved (completion_of (Some []))) gen)
                            (lit "AAEC") (lit "anime"))) = failure
   /\ existsb is_generate
        (snd (run (transformImage
                     (stub_openai (Resolved (completion_of (Some []))) gen)
                     (lit "AAEC") (lit "anime")))) = false)
  /\ (fst (run (transformImage (stub_openai (Resolved (completion_of None)) gen)
                               (lit "AAEC") (lit "anime"))) = failure
      /\ existsb is_generate
           (snd (run (transformImage
                        (stub_openai (Resolved (completion_of None)) gen)
                        (lit "AAEC") (lit "anime")))) = false).
Proof.
  intros gen failure. split.
  - destruct (transformImage_description_unavailable
                (stub_openai (Resolved (completion_of (Some []))) gen)
                (lit "AAEC") (lit "anime")
                (completion_of (Some [])) {| content := Some [] |} []
                eq_refl eq_refl eq_refl) as (Hres & _ & Hnever).
    split; assumption.
  - destruct (transformImage_description_unavailable
                (stub_openai (Resolved (completion_of None)) gen)
                (lit "AAEC") (lit "anime")
                (completion_of None) {| content := None |} []
                eq_refl eq_refl I) as (Hres & _ & Hnever).
    split; assumption.
Defined.

(** C2 as written fails on a reply in which the description is missing
    because there is no choice at all: the pipeline then fails on reading
    the first choice, with the wrapped message of that failure and not with
    the error of the unavailable description. *)
Lemma transformImage_missing_choice_fails_otherwise :
  let openai :=
    stub_openai (Resolved {| choices := [] |})
                (Resolved (generated_at (lit "https://img.example/1.png"))) in
  chat_completions_create openai (describe_request (lit "AAEC"))
  = Resolved {| choices := [] |}
  /\ nth_error (choices {| choices := [] |}) 0 = None
  /\ fst (run (transformImage openai (lit "AAEC") (lit "anime")))
     = Throw (new_Error
                (lit "Failed to transform image: Cannot read properties of undefined (reading 'message')"))
  /\ fst (run (transformImage openai (lit "AAEC") (lit "anime")))
     <> Throw (new_Error
                 (lit "Failed to transform image: Could not generate description from image.")).
Proof.
  intros openai. split; [reflexivity|]. split; [reflexivity|].
  split; [vm_compute; reflexivity | vm_compute; discriminate].
Qed.

(** Whatever [transformImage] throws is a fresh [Error] without a cause
    whose message starts with the one fixed prefix. *)
Lemma transformImage_throws_wrapped (openai : OpenAI)
    (imageBase64 style : jsstring) (thrown : js_error) :
  fst (run (transformImage openai imageBase64 style)) = Throw thrown ->
  exists m, thrown = Error (lit "Failed to transform image: " ++ m).
Proof.
  unfold transformImage, transformImage_body. io_simpl.
  destruct (chat_completions_create openai (describe_request imageBase64))
    as [completion|e]; io_simpl;
    [|intros [= <-]; eexists; reflexivity].
  destruct (choices completion) as [|c rest]; io_simpl;
    [intros [= <-]; eexists; reflexivity|].
  destruct (content c) as [desc|]; io_simpl;
    [|intros [= <-]; eexists; reflexivity].
  destruct (trim desc) as [|a d]; io_simpl;
    [intros [= <-]; eexists; reflexivity|].
  destruct (images_generate openai _) as [generated|e]; io_simpl;
    [|intros [= <-]; eexists; reflexivity].
  destruct (first_url generated) as [[|u us]|]; io_simpl;
    intros [= <-]; eexists; reflexivity.
Qed.

(** C3 (as amended). When the external call of either stage rejects with
    an error [e], [transformImage] catches it and throws one fresh [Error]
    whose message is "Failed to transform image: " followed by the message
    of [e]; the text is the same for both stages, and the thrown error has
    no cause: of the original error only the message is kept. The calls
    made are those up to the failing stage. *)
Theorem transformImage_wraps_external_failure (openai : OpenAI)
    (imageBase64 style : jsstring) (st : stage) (e : js_error) :
  fails_at openai imageBase64 style st e ->
  exists finalPrompt,
    run (transformImage openai imageBase64 style)
    = (Throw (Error (lit "Failed to transform image: " ++ message e)),
       calls_until imageBase64 st finalPrompt)
    /\ cause (Error (lit "Failed to transform image: " ++ message e)) = None.
Proof.
  destruct st; simpl.
  - intros Hchat. exists []. split; [|reflexivity].
    unfold transformImage, transformImage_body. io_simpl.
    rewrite Hchat. reflexivity.
  - intros (completion & c & rest & desc & Hchat & Hch & Hc & Htrim & Hgen).
    eexists. split; [|reflexivity].
    rewrite (transformImage_described openai imageBase64 style
               completion c rest desc Hchat Hch Hc Htrim).
    rewrite Hgen. reflexivity.
Qed.

(** C3 at a description call that times out. *)
Lemma transformImage_wraps_external_failure_witness :
  let e := new_Error (lit "connect ETIMEDOUT") in
  let openai :=
    stub_openai (Rejected e)
                (Resolved (generated_at (lit "https://img.example/1.png"))) in
  exists finalPrompt,
    run (transformImage openai (lit "AAEC") (lit "anime"))
    = (Throw (Error (lit "Failed to transform image: " ++ message e)),
       calls_until (lit "AAEC") Describing finalPrompt)
    /\ cause (Error (lit "Failed to transform image: " ++ message e)) = None.
Proof.
  intros e openai.
  apply (transformImage_wraps_external_failure openai (lit "AAEC")
           (lit "anime") Describing e).
  reflexivity.
Defined.

(** C3 as written fails: the same upstream error, once from the
    description call and once from the generation call, leaves
    [transformImage] with one and the same error, whose message names
    neither stage and which has no cause. *)
Lemma transformImage_failure_names_no_stage :
  let e := new_Error (lit "connect ETIMEDOUT") in
  let describing :=
    stub_openai (Rejected e)
                (Resolved (generated_at (lit "https://img.example/1.png"))) in
  let generating :=
    stub_openai (Resolved (completion_of (Some (lit "a smiling person outdoors"))))
                (Rejected e) in
  let thrown := Error (lit "Failed to transform image: connect ETIMEDOUT") in
  fails_at describing (lit "AAEC") (lit "anime") Describing e
  /\ fails_at generating (lit "AAEC") (lit "anime") Generating e
  /\ fst (run (transformImage describing (lit "AAEC") (lit "anime")))
     = Throw thrown
  /\ fst (run (transformImage generating (lit "AAEC") (lit "anime")))
     = Throw thrown
  /\ includes (message thrown) (lit "failed to describe image") = false
  /\ includes (message thrown) (lit "failed to generate image") = false
  /\ includes (message thrown) (lit "describe") = false
  /\ includes (message thrown) (lit "generate") = false
  /\ cause thrown = None.
Proof.
  intros e describing generating thrown.
  split; [reflexivity|]. split.
  - exists (completion_of (Some (lit "a smiling person outdoors"))),
      {| content := Some (lit "a smiling person outdoors") |}, [],
      (lit "a smiling person outdoors").
    repeat split; try reflexivity. vm_compute. discriminate.
  - repeat split; vm_compute; reflexivity.
Qed.

(** ** The style check *)

Lemma safeParse_other_style (style : jsstring) :
  ~ In style style_ids ->
  styleTransformSchema_safeParse (VString style) = None.
Proof.
  intros Hnot. unfold styleTransformSchema_safeParse.
  now apply array_includes_not_In in Hnot as ->.
Qed.

Lemma safeParse_success (v : js_value) (s : jsstring) :
  styleTransformSchema_safeParse v = Some s ->
  v = VString s /\ In s style_ids.
Proof.
  unfold styleTransformSchema_safeParse.
  destruct v as [| |b|n|t]; try discriminate.
  destruct (array_includes style_ids t) eqn:Hin; [|discriminate].
  intros [= ->]. split; [reflexivity | now apply array_includes_In].
Qed.

(** The catalog route lists the five styles in the order of the union
    type. *)
Lemma get_api_styles_ids : map style_id get_api_styles = style_ids.
Proof. reflexivity. Qed.

(** The route enters the pipeline, and so calls out, only for a style of
    the catalog. *)
Lemma post_api_transform_calls_only_for_catalog_styles (openai : OpenAI)
    (req_body : transform_body) :
  snd (run (post_api_transform openai req_body)) <> [] ->
  exists style, body_style req_body = VString style /\ In style style_ids.
Proof.
  unfold post_api_transform. io_simpl.
  destruct (styleTransformSchema_safeParse (body_style req_body))
    as [style|] eqn:Hparse.
  - intros _. exists style. now apply safeParse_success.
  - io_simpl. intros Hcalls. now contradiction Hcalls.
Qed.

(** C4 (as amended). Each of the five style identifiers has a non-empty
    template among the own properties of [STYLE_PROMPTS]. For any other
    string the lookup gives no template, but it does not fail and
    [transformImage] makes no check of its own: it goes on to the
    description call. The check that rejects every other style is the one
    of the POST /api/transform route, which answers 400 "Invalid style
    selected" before the pipeline is entered, so with no external call
    made. *)
Theorem unknown_style_rejected_by_route_only (openai : OpenAI)
    (imageBase64 style : jsstring) :
  ~ In style style_ids ->
  Forall (fun id => exists template,
            get_property STYLE_PROMPTS id = Own template /\ template <> [])
         style_ids
  /\ (forall template, get_property STYLE_PROMPTS style <> Own template)
  /\ (exists r rest,
        run (transformImage openai imageBase64 style)
        = (r, ChatCompletionsCreate (describe_request imageBase64) :: rest))
  /\ run (post_api_transform openai
            {| body_style := VString style;
               body_imageBase64 := Some imageBase64 |})
     = (Ok (json 400 (MessageJson (lit "Invalid style selected"))), []).
Proof.
  intros Hnot. split; [|split; [|split]].
  - apply Forall_forall. intros id Hid. now apply style_has_template.
  - now apply other_style_has_no_template.
  - apply transformImage_describes_first.
  - unfold post_api_transform. cbn [body_style].
    rewrite (safeParse_other_style style Hnot). reflexivity.
Qed.

(** C4 at the style "pixar". *)
Lemma unknown_style_rejected_by_route_only_witness :
  let openai :=
    stub_openai (Resolved (completion_of (Some (lit "a smiling person outdoors"))))
                (Resolved (generated_at (lit "https://img.example/1.png"))) in
  run (post_api_transform openai
         {| body_style := VString (lit "pixar");
            body_imageBase64 := Some (lit "AAEC") |})
  = (Ok (json 400 (MessageJson (lit "Invalid style selected"))), []).
Proof.
  intros openai.
  apply (unknown_style_rejected_by_route_only openai (lit "AAEC") (lit "pixar")).
  vm_compute. intuition discriminate.
Defined.

(** C4 as written fails: handed the string "pixar", the pipeline does not
    fail with an unknown-style error before its external calls; the lookup
    gives [undefined], both calls are made, the prompt starts with the text
    "undefined", and the generated URL is returned. *)
Lemma transformImage_unknown_style_not_rejected :
  let openai :=
    stub_openai (Resolved (completion_of (Some (lit "a smiling person outdoors"))))
                (Resolved (generated_at (lit "https://img.example/1.png"))) in
  ~ In (lit "pixar") style_ids
  /\ get_property STYLE_PROMPTS (lit "pixar") = Undefined
  /\ run (transformImage openai (lit "AAEC") (lit "pixar"))
     = (Ok (lit "https://img.example/1.png"),
        [ChatCompletionsCreate (describe_request (lit "AAEC"));
         ImagesGenerate
           (generate_request
              (lit "undefined" ++ content_separator
               ++ lit "a smiling person outdoors" ++ closing_instruction))]).
Proof.
  intros openai. split; [vm_compute; intuition discriminate|].
  split; vm_compute; reflexivity.
Qed.

(** ** The record store *)

Lemma first_ids_succ (n : nat) :
  first_ids (S n) = first_ids n ++ [Z.of_nat n + 1].
Proof.
  unfold first_ids. rewrite seq_S, map_app. simpl. do 2 f_equal. lia.
Qed.

Lemma first_ids_bounds (n : nat) (id : Z) :
  In id (first_ids n) <-> 1 <= id <= Z.of_nat n.
Proof.
  unfold first_ids. rewrite in_map_iff. split.
  - intros (k & <- & Hk). apply in_seq in Hk. lia.
  - intros Hid. exists (Z.to_nat id). split; [lia|]. apply in_seq. lia.
Qed.

Lemma first_ids_increasing (n : nat) : StronglySorted Z.lt (first_ids n).
Proof.
  induction n as [|n IH]; [constructor|].
  rewrite first_ids_succ.
  assert (Hsnoc : forall l x, StronglySorted Z.lt l ->
                    Forall (fun y => y < x) l ->
                    StronglySorted Z.lt (l ++ [x])).
  { induction l as [|a l IHl]; intros x Hs Hall; simpl.
    - repeat constructor.
    - inversion Hs; subst. inversion Hall; subst. constructor.
      + now apply IHl.
      + apply Forall_app. split; [assumption | now constructor]. }
  apply Hsnoc; [assumption|].
  apply Forall_forall. intros y Hy. apply first_ids_bounds in Hy. lia.
Qed.

Lemma first_ids_NoDup (n : nat) : NoDup (first_ids n).
Proof.
  unfold first_ids. apply Injective_map_NoDup; [|apply seq_NoDup].
  intros a b. lia.
Qed.

Section Table.
Context {V : Type} (idof : V -> Z).

Lemma set_fresh (m : JsMap.t V) (k : Z) (v : V) :
  ~ In k (JsMap.keys m) -> JsMap.set m k v = m ++ [(k, v)].
Proof.
  induction m as [|[k' v'] m IH]; simpl; intros Hnot; [reflexivity|].
  destruct (Z.eqb_spec k' k) as [->|Hne].
  - exfalso. apply Hnot. now left.
  - f_equal. apply IH. intros Hin. apply Hnot. now right.
Qed.

Lemma keys_entries_of (l : list V) :
  JsMap.keys (entries_of idof l) = map idof l.
Proof.
  unfold JsMap.keys, entries_of. rewrite map_map. reflexivity.
Qed.

Lemma values_entries_of (l : list V) : JsMap.values (entries_of idof l) = l.
Proof.
  unfold JsMap.values, entries_of. rewrite map_map. apply map_id.
Qed.

Lemma get_entries_of (l : list V) (id : Z) :
  JsMap.get (entries_of idof l) id = find (fun v => idof v =? id) l.
Proof.
  induction l as [|v l IH]; simpl; [reflexivity|].
  destruct (idof v =? id); [reflexivity | exact IH].
Qed.

Lemma table_of_empty : table_of idof JsMap.empty 1 [].
Proof. repeat split. Qed.

(** Creating one more record: it takes the counter as its identifier,
    goes to the end of the table, and the counter moves on by one. *)
Lemma table_of_create (m : JsMap.t V) (counter : Z) (l : list V) (v : V) :
  table_of idof m counter l ->
  idof v = counter ->
  table_of idof (JsMap.set m counter v) (counter + 1) (l ++ [v]).
Proof.
  intros (Hm & Hids & Hc) Hv. subst m.
  assert (Hfresh : ~ In counter (JsMap.keys (entries_of idof l))).
  { rewrite keys_entries_of, Hids, first_ids_bounds. lia. }
  repeat split.
  - rewrite (set_fresh _ _ _ Hfresh). unfold entries_of.
    rewrite map_app. simpl. now rewrite Hv.
  - rewrite map_app, length_app, Hids. simpl.
    rewrite Nat.add_1_r, first_ids_succ, Hv, Hc. reflexivity.
  - rewrite length_app. simpl. lia.
Qed.
End Table.

Lemma run_history_snoc (h : list creation) (c : creation) :
  run_history (h ++ [c]) = step (run_history h) c.
Proof. unfold run_history. now rewrite fold_left_app. Qed.

Lemma step_store_of (s : MemStorage) (r : created) (c : creation) :
  store_of s r -> store_of (fst (step (s, r) c)) (snd (step (s, r) c)).
Proof.
  intros (Hu & Hi & Ht). destruct c as [u|i now|t now]; simpl;
    (split; [|split]);
    first [assumption | apply table_of_create; [assumption | reflexivity]].
Qed.

Lemma run_history_store_of (h : list creation) :
  store_of (fst (run_history h)) (snd (run_history h)).
Proof.
  induction h as [|c h IH] using rev_ind.
  - split; [|split]; apply table_of_empty.
  - rewrite run_history_snoc.
    destruct (run_history h) as [s r]. now apply step_store_of.
Qed.

Section Lookup.
Context {V : Type} (idof : V -> Z).

Lemma find_by_id_absent (l : list V) (id : Z) :
  ~ In id (map idof l) -> find (fun v => idof v =? id) l = None.
Proof.
  induction l as [|v l IH]; simpl; intros Hnot; [reflexivity|].
  destruct (Z.eqb_spec (idof v) id) as [Heq|Hne].
  - exfalso. apply Hnot. now left.
  - apply IH. intros Hin. apply Hnot. now right.
Qed.

Lemma find_by_id_present (l : list V) (v : V) :
  NoDup (map idof l) -> In v l ->
  find (fun v' => idof v' =? idof v) l = Some v.
Proof.
  induction l as [|a l IH]; simpl; intros Hnd Hin; [contradiction|].
  inversion Hnd as [|x xs Hnotin Hnd']; subst.
  destruct Hin as [->|Hin].
  - now rewrite Z.eqb_refl.
  - destruct (Z.eqb_spec (idof a) (idof v)) as [Heq|Hne].
    + exfalso. apply Hnotin. rewrite Heq. now apply in_map.
    + now apply IH.
Qed.

Lemma table_of_as_specified (m : JsMap.t V) (counter : Z) (l : list V) :
  table_of idof m counter l ->
  kind_as_specified idof (JsMap.get m) l.
Proof.
  intros (-> & Hids & _).
  assert (Hnd : NoDup (map idof l)).
  { rewrite Hids. apply first_ids_NoDup. }
  split; [|split].
  - split; [|split].
    + now rewrite length_map.
    + exact Hnd.
    + rewrite Hids. apply first_ids_increasing.
  - intros v Hin. rewrite get_entries_of. now apply find_by_id_present.
  - intros id Hnot. rewrite get_entries_of. now apply find_by_id_absent.
Qed.
End Lookup.

Lemma run_history_counts (h : list creation) :
  List.length (created_users (snd (run_history h)))
  = List.length (filter is_CreateUser h)
  /\ List.length (created_images (snd (run_history h)))
     = List.length (filter is_CreateImage h)
  /\ List.length (created_transformations (snd (run_history h)))
     = List.length (filter is_CreateTransformation h).
Proof.
  induction h as [|c h (IHu & IHi & IHt)] using rev_ind.
  - repeat split.
  - rewrite run_history_snoc, !filter_app, !length_app.
    destruct (run_history h) as [s r].
    destruct c as [u|i now|t now]; simpl in *;
      rewrite ?length_app; simpl; lia.
Qed.

(** C5. On a fresh store, after any history of creations (of the three
    kinds, in any interleaving), and for each kind: the N creations of that
    kind returned the identifiers 1, 2, ..., N in this order, distinct and
    strictly increasing; every record created is found under its identifier;
    and the lookup of an identifier that was never handed out gives absent
    ([None]), not an error. *)
Theorem create_assigns_sequential_ids (h : list creation) :
  let s := fst (run_history h) in
  let r := snd (run_history h) in
  (List.length (created_users r) = List.length (filter is_CreateUser h)
   /\ kind_as_specified User.id (getUser s) (created_users r))
  /\ (List.length (created_images r) = List.length (filter is_CreateImage h)
      /\ kind_as_specified Image.id (getImage s) (created_images r))
  /\ (List.length (created_transformations r)
      = List.length (filter is_CreateTransformation h)
      /\ kind_as_specified Transformation.id (getTransformation s)
           (created_transformations r)).
Proof.
  intros s r.
  destruct (run_history_store_of h) as (Hu & Hi & Ht).
  destruct (run_history_counts h) as (Hnu & Hni & Hnt).
  repeat split; try assumption;
    try (eapply table_of_as_specified; eassumption).
Qed.

Lemma repeat_snoc {A} (a : A) (n : nat) : repeat a (S n) = repeat a n ++ [a].
Proof. simpl. apply repeat_cons. Qed.

(** C6. On the store reached by any history, and for every [imageId],
    [getTransformationsByImageId] returns exactly the transformations
    created so far whose [imageId] equals the argument, in the order of
    their creation; and the result has no upper bound: for every n some
    history makes it n long. *)
Theorem getTransformationsByImageId_in_creation_order
    (h : list creation) (imageId : Z) :
  getTransformationsByImageId (fst (run_history h)) imageId
  = filter (fun t => Transformation.imageId t =? imageId)
           (created_transformations (snd (run_history h)))
  /\ forall n : nat, exists h',
       List.length (getTransformationsByImageId (fst (run_history h')) imageId)
       = n.
Proof.
  assert (Hexact : forall h0,
             getTransformationsByImageId (fst (run_history h0)) imageId
             = filter (fun t => Transformation.imageId t =? imageId)
                      (created_transformations (snd (run_history h0)))).
  { intros h0. destruct (run_history_store_of h0) as (_ & _ & (Hm & _)).
    unfold getTransformationsByImageId. rewrite Hm.
    now rewrite values_entries_of. }
  split; [apply Hexact|].
  intros n.
  exists (repeat (CreateTransformation
                    {| InsertTransformation.imageId := imageId;
                       InsertTransformation.style := lit "anime";
                       InsertTransformation.transformedUrl := [] |} [])
                 n).
  rewrite Hexact. induction n as [|n IH]; [reflexivity|].
  rewrite repeat_snoc, run_history_snoc.
  destruct (run_history (repeat _ n)) as [s r]. simpl in *.
  rewrite filter_app, length_app, IH. simpl.
  rewrite Z.eqb_refl. simpl. lia.
Qed.

(** C9 does not hold of the code: [createUser] stores a second user under
    a username already taken. After two insertions of the username "ann"
    the store holds two users, with the identifiers 1 and 2, both named
    "ann"; [getUserByUsername] gives the first of them. *)
Theorem createUser_accepts_taken_username :
  let ann pw := {| InsertUser.username := lit "ann";
                   InsertUser.password := pw |} in
  let s := fst (run_history [CreateUser (ann (lit "pw1"));
                             CreateUser (ann (lit "pw2"))]) in
  map User.id (JsMap.values (users s)) = [1; 2]
  /\ map User.username (JsMap.values (users s)) = [lit "ann"; lit "ann"]
  /\ ~ NoDup (map User.username (JsMap.values (users s)))
  /\ getUserByUsername s (lit "ann")
     = Some {| User.id := 1; User.username := lit "ann";
               User.password := lit "pw1" |}.
Proof.
  intros ann s. split; [reflexivity|]. split; [reflexivity|].
  split; [|reflexivity].
  intros Hnd. inversion Hnd as [|x xs Hnotin _]; subst.
  apply Hnotin. now left.
Qed.

(** ** Base64 *)

Module Base64Facts.
Import Base64.

Lemma all_below_In (n : nat) (z : Z) :
  0 <= z < Z.of_nat n -> In z (all_below n).
Proof.
  intros Hz. unfold all_below. apply in_map_iff.
  exists (Z.to_nat z). split; [lia|]. apply in_seq. lia.
Qed.

Lemma checked_below (n : nat) (p : Z -> bool) :
  forallb p (all_below n) = true ->
  forall z, 0 <= z < Z.of_nat n -> p z = true.
Proof.
  intros Hall z Hz. rewrite forallb_forall in Hall.
  apply Hall. now apply all_below_In.
Qed.

Lemma is_sextet_spec (s : Z) : is_sextet s = true <-> 0 <= s < 64.
Proof. unfold is_sextet. lia. Qed.

Lemma char_checked (s : Z) : 0 <= s < 64 -> char_check s = true.
Proof.
  apply (checked_below 64 char_check). vm_compute. reflexivity.
Qed.

Lemma byte_checked (b : Z) : is_byte b -> byte_check b = true.
Proof.
  apply (checked_below 256 byte_check). vm_compute. reflexivity.
Qed.

Lemma pair_checked (a b : Z) :
  is_byte a -> is_byte b -> pair_check a b = true.
Proof.
  intros Ha Hb.
  assert (Hall : forallb (fun x => forallb (pair_check x) (all_below 256))
                         (all_below 256) = true)
    by (vm_compute; reflexivity).
  apply (checked_below 256 _ (checked_below 256 _ Hall a Ha) b Hb).
Qed.

Lemma sextet_of_char_of (s : Z) :
  0 <= s < 64 -> sextet_of (char_of s) = Some s /\ (char_of s =? pad) = false.
Proof.
  intros Hs. pose proof (char_checked s Hs) as Hc. unfold char_check in Hc.
  destruct (sextet_of (char_of s)) as [s'|]; [|discriminate].
  apply andb_prop in Hc as [Heq Hpad]. apply Z.eqb_eq in Heq. subst s'.
  split; [reflexivity | now apply negb_true_iff].
Qed.

(** The four groups of three bytes are 6 bits wide and give the three
    bytes back. *)
Lemma group_round_trip (b0 b1 b2 : Z) :
  is_byte b0 -> is_byte b1 -> is_byte b2 ->
  (0 <= sextet0 b0 < 64 /\ 0 <= sextet1 b0 b1 < 64
   /\ 0 <= sextet2 b1 b2 < 64 /\ 0 <= sextet3 b2 < 64)
  /\ byte0 (sextet0 b0) (sextet1 b0 b1) = b0
  /\ byte1 (sextet1 b0 b1) (sextet2 b1 b2) = b1
  /\ byte2 (sextet2 b1 b2) (sextet3 b2) = b2.
Proof.
  intros H0 H1 H2.
  pose proof (byte_checked b0 H0) as C0.
  pose proof (byte_checked b1 H1) as C1.
  pose proof (byte_checked b2 H2) as C2.
  pose proof (pair_checked b0 b1 H0 H1) as P01.
  pose proof (pair_checked b1 b2 H1 H2) as P12.
  unfold byte_check in C0, C1, C2. unfold pair_check in P01, P12.
  repeat match goal with
         | H : _ && _ = true |- _ => apply andb_prop in H as [? ?]
         | H : is_sextet _ = true |- _ => apply is_sextet_spec in H
         | H : (_ =? _) = true |- _ => apply Z.eqb_eq in H
         end.
  split; [repeat split; lia|].
  split; [assumption|]. unfold byte1, byte2, sextet3. split; congruence.
Qed.

Lemma zero_is_byte : is_byte 0.
Proof. unfold is_byte. lia. Qed.

Lemma list_ind3 {A} (P : list A -> Prop) :
  P [] ->
  (forall a, P [a]) ->
  (forall a b, P [a; b]) ->
  (forall a b c l, P l -> P (a :: b :: c :: l)) ->
  forall l, P l.
Proof.
  intros Hnil Hone Htwo Hstep. fix IH 1.
  intros [|a [|b [|c l]]];
    [exact Hnil | exact (Hone a) | exact (Htwo a b)
     | exact (Hstep a b c l (IH l))].
Qed.

(** Decoding an encoded byte sequence gives the sequence back. *)
Lemma decode_encode (bytes : list Z) :
  Forall is_byte bytes -> decode (encode bytes) = Some bytes.
Proof.
  induction bytes as [|b0|b0 b1|b0 b1 b2 rest IH] using list_ind3;
    intros Hall.
  - reflexivity.
  - inversion Hall as [|? ? H0 _]; subst.
    destruct (group_round_trip b0 0 0 H0 zero_is_byte zero_is_byte)
      as ((R0 & R1 & _) & E0 & _).
    destruct (sextet_of_char_of _ R0) as [S0 _].
    destruct (sextet_of_char_of _ R1) as [S1 _].
    cbn [encode decode]. rewrite S0, S1, Z.eqb_refl. cbn [andb].
    now rewrite E0.
  - inversion Hall as [|? ? H0 Hall']; subst.
    inversion Hall' as [|? ? H1 _]; subst.
    destruct (group_round_trip b0 b1 0 H0 H1 zero_is_byte)
      as ((R0 & R1 & R2 & _) & E0 & E1 & _).
    destruct (sextet_of_char_of _ R0) as [S0 _].
    destruct (sextet_of_char_of _ R1) as [S1 _].
    destruct (sextet_of_char_of _ R2) as [S2 N2].
    cbn [encode decode]. rewrite S0, S1, S2, N2, Z.eqb_refl. cbn [andb].
    now rewrite E0, E1.
  - inversion Hall as [|? ? H0 Hall']; subst.
    inversion Hall' as [|? ? H1 Hall'']; subst.
    inversion Hall'' as [|? ? H2 Hrest]; subst.
    destruct (group_round_trip b0 b1 b2 H0 H1 H2)
      as ((R0 & R1 & R2 & R3) & E0 & E1 & E2).
    destruct (sextet_of_char_of _ R0) as [S0 _].
    destruct (sextet_of_char_of _ R1) as [S1 _].
    destruct (sextet_of_char_of _ R2) as [S2 N2].
    destruct (sextet_of_char_of _ R3) as [S3 N3].
    cbn [encode app]. cbn [decode].
    rewrite S0, S1, S2, S3, N2, N3. cbn [andb].
    rewrite (IH Hrest). cbn [option_map]. now rewrite E0, E1, E2.
Qed.

(** Every three bytes, the last group filled up, take four characters. *)
Lemma encode_length (bytes : list Z) :
  List.length (encode bytes) = (4 * ((List.length bytes + 2) / 3))%nat.
Proof.
  induction bytes as [|b0|b0 b1|b0 b1 b2 rest IH] using list_ind3;
    try reflexivity.
  cbn [encode app List.length]. rewrite IH.
  replace (S (S (S (List.length rest))) + 2)%nat
    with (List.length rest + 2 + 1 * 3)%nat by lia.
  rewrite Nat.div_add by lia. lia.
Qed.

End Base64Facts.

(** ** The upload handler *)

Lemma allowed_type_passes_filter (part : file_part) :
  In (part_mimetype part) allowed_image_types -> fileFilter part = inr true.
Proof.
  intros Hin. unfold fileFilter.
  assert (Himg : startsWith (part_mimetype part) (lit "image/") = true).
  { simpl in Hin.
    repeat (destruct Hin as [<-|Hin]; [reflexivity|]). destruct Hin. }
  rewrite Himg. apply array_includes_In in Hin. now rewrite Hin.
Qed.

Lemma other_type_fails_filter (part : file_part) :
  ~ In (part_mimetype part) allowed_image_types ->
  exists e, fileFilter part = inl e /\ In (message e) type_reasons.
Proof.
  intros Hnot. unfold fileFilter.
  apply array_includes_not_In in Hnot. rewrite Hnot.
  destruct (startsWith (part_mimetype part) (lit "image/")); simpl;
    eexists; (split; [reflexivity|]); simpl; tauto.
Qed.

(** The issues of the shared schema: the size issue, then the type
    issue, each when its refinement fails. *)
Lemma imageUploadSchema_issues_eq (file : File) :
  imageUploadSchema_issues file
  = (if file_size file <? MAX_UPLOAD_BYTES then []
     else [lit "Image size should not exceed 5MB"])
    ++ (if array_includes allowed_image_types (file_type file) then []
        else [lit "Please upload a valid image (JPG, PNG, WEBP)"]).
Proof.
  unfold imageUploadSchema_issues, imageUploadSchema_refinements.
  cbn [run_refinements].
  destruct (file_size file <? MAX_UPLOAD_BYTES);
    destruct (array_includes allowed_image_types (file_type file));
    reflexivity.
Qed.

(** C7 (as amended). A payload larger than 5 MiB is rejected whatever
    content type it declares, and a content type outside image/jpeg,
    image/png, image/webp is rejected whatever the size, each time with an
    error that carries a non-empty reason. The order of the two checks
    depends on the validator. The server's multer upload asks the type
    filter first: a content type outside the three is answered with a type
    reason whatever the size, and the size reason is only given to a payload
    of an accepted type; the client's [validateFile] tests the type first
    as well. The shared [imageUploadSchema] checks the size first: the size
    issue comes first among its issues. *)
Theorem invalid_upload_rejected (part : file_part) :
  limits_fileSize < Z.of_nat (List.length (part_content part))
  \/ ~ In (part_mimetype part) allowed_image_types ->
  (exists e,
      post_api_upload (Some part) = NextError e
      /\ message e <> []
      /\ (~ In (part_mimetype part) allowed_image_types ->
          In (message e) type_reasons)
      /\ (In (part_mimetype part) allowed_image_types ->
          e = LIMIT_FILE_SIZE))
  /\ imageUploadSchema_accepts (file_of_part part) = false
  /\ (limits_fileSize < Z.of_nat (List.length (part_content part)) ->
      hd_error (imageUploadSchema_issues (file_of_part part))
      = Some (lit "Image size should not exceed 5MB"))
  /\ (~ In (part_mimetype part) allowed_image_types ->
      In (lit "Please upload a valid image (JPG, PNG, WEBP)")
         (imageUploadSchema_issues (file_of_part part)))
  /\ (exists reason,
        validateFile (file_of_part part) = Some reason
        /\ (~ In (part_mimetype part) allowed_image_types ->
            reason = lit "Please upload a valid image (JPG, PNG, WEBP)")).
Proof.
  intros Hbad.
  assert (Hsize : limits_fileSize < Z.of_nat (List.length (part_content part))
                  -> (file_size (file_of_part part) <? MAX_UPLOAD_BYTES) = false).
  { intros Hlt. apply Z.ltb_ge. unfold file_of_part, MAX_UPLOAD_BYTES,
      limits_fileSize in *. simpl. lia. }
  split; [|split; [|split; [|split]]].
  - unfold post_api_upload, upload_single.
    destruct (in_dec (list_eq_dec Z.eq_dec) (part_mimetype part)
                allowed_image_types) as [Hin|Hnot].
    + destruct Hbad as [Hlt|Hnot]; [|contradiction].
      rewrite (allowed_type_passes_filter part Hin).
      assert (Hfull : (limits_fileSize
                       <=? Z.of_nat (List.length (part_content part))) = true)
        by (apply Z.leb_le; lia).
      rewrite Hfull.
      exists LIMIT_FILE_SIZE. repeat split; try discriminate. contradiction.
    + destruct (other_type_fails_filter part Hnot) as (e & He & Hreason).
      rewrite He. exists e. repeat split; try tauto.
      simpl in Hreason. destruct Hreason as [<-|[<-|[]]]; discriminate.
  - unfold imageUploadSchema_accepts. rewrite imageUploadSchema_issues_eq.
    destruct Hbad as [Hlt|Hnot].
    + rewrite (Hsize Hlt). reflexivity.
    + apply array_includes_not_In in Hnot. cbn [file_of_part file_type].
      rewrite Hnot. now destruct (_ <? _).
  - intros Hlt. rewrite imageUploadSchema_issues_eq, (Hsize Hlt). reflexivity.
  - intros Hnot. rewrite imageUploadSchema_issues_eq.
    apply array_includes_not_In in Hnot. cbn [file_of_part file_type].
    rewrite Hnot. apply in_or_app. right. now left.
  - unfold validateFile. cbn [file_of_part file_type file_size].
    destruct (array_includes allowed_image_types (part_mimetype part))
      eqn:Hin; cbn [negb].
    + apply array_includes_In in Hin.
      destruct Hbad as [Hlt|Hnot]; [|contradiction].
      unfold limits_fileSize in Hlt. apply Z.gtb_lt in Hlt. rewrite Hlt.
      eexists. split; [reflexivity|]. contradiction.
    + eexists. split; reflexivity.
Qed.

(** C7 at a text file of three bytes. *)
Lemma invalid_upload_rejected_witness :
  let part := {| part_originalname := lit "notes.txt";
                 part_mimetype := lit "text/plain";
                 part_content := [104; 105; 10] |} in
  (exists e,
      post_api_upload (Some part) = NextError e
      /\ message e <> []
      /\ (~ In (part_mimetype part) allowed_image_types ->
          In (message e) type_reasons)
      /\ (In (part_mimetype part) allowed_image_types ->
          e = LIMIT_FILE_SIZE))
  /\ imageUploadSchema_accepts (file_of_part part) = false
  /\ (limits_fileSize < Z.of_nat (List.length (part_content part)) ->
      hd_error (imageUploadSchema_issues (file_of_part part))
      = Some (lit "Image size should not exceed 5MB"))
  /\ (~ In (part_mimetype part) allowed_image_types ->
      In (lit "Please upload a valid image (JPG, PNG, WEBP)")
         (imageUploadSchema_issues (file_of_part part)))
  /\ (exists reason,
        validateFile (file_of_part part) = Some reason
        /\ (~ In (part_mimetype part) allowed_image_types ->
            reason = lit "Please upload a valid image (JPG, PNG, WEBP)")).
Proof.
  intros part. apply (invalid_upload_rejected part).
  right. vm_compute. intuition discriminate.
Defined.

(** C7 as written fails on the order of the checks: a payload that is over
    the limit and is not an image is turned down by the server for its
    type, not for its size, and so it is by the client's check. *)
Lemma oversized_non_image_rejected_for_type :
  let part := {| part_originalname := lit "notes.txt";
                 part_mimetype := lit "text/plain";
                 part_content := repeat 0 (Z.to_nat (6 * 1024 * 1024)) |} in
  limits_fileSize < Z.of_nat (List.length (part_content part))
  /\ post_api_upload (Some part)
     = NextError (new_Error (lit "Only image files are allowed"))
  /\ validateFile {| file_size := 6 * 1024 * 1024;
                     file_type := lit "text/plain" |}
     = Some (lit "Please upload a valid image (JPG, PNG, WEBP)").
Proof.
  intros part. split; [|split].
  - unfold part. cbn [part_content]. rewrite repeat_length, Z2Nat.id by lia.
    unfold limits_fileSize. lia.
  - reflexivity.
  - reflexivity.
Qed.

(** What the upload middleware does with a valid part: a part of an
    accepted type whose body is shorter than [limits.fileSize]. *)
Lemma valid_upload_accepted (part : file_part) :
  In (part_mimetype part) allowed_image_types ->
  Z.of_nat (List.length (part_content part)) < limits_fileSize ->
  upload_single (Some part)
  = inr (Some {| originalname := part_originalname part;
                 mimetype := part_mimetype part;
                 buffer := part_content part;
                 size := Z.of_nat (List.length (part_content part)) |}).
Proof.
  intros Hin Hlt. unfold upload_single.
  rewrite (allowed_type_passes_filter part Hin).
  apply Z.leb_gt in Hlt. now rewrite Hlt.
Qed.

(** A part of an accepted type whose body reaches [limits.fileSize] is
    refused for its size. *)
Lemma full_upload_refused (part : file_part) :
  In (part_mimetype part) allowed_image_types ->
  limits_fileSize <= Z.of_nat (List.length (part_content part)) ->
  upload_single (Some part) = inl LIMIT_FILE_SIZE.
Proof.
  intros Hin Hle. unfold upload_single.
  rewrite (allowed_type_passes_filter part Hin).
  apply Z.leb_le in Hle. now rewrite Hle.
Qed.



(** C10 (as amended). At the size boundary the shared schema and the
    server agree, and it is the client's check that differs: a file of
    exactly 5 * 1024 * 1024 bytes of an accepted type is rejected by the
    shared [imageUploadSchema], whose refinement asks for a size strictly
    below that number, with the size issue alone; the server's multer
    configuration refuses it as well, the limit being reached at that very
    number of bytes, and the request ends in the LIMIT_FILE_SIZE error;
    the client's [validateFile], which only reports sizes above the number,
    lets it through. *)
Theorem validators_at_size_boundary (part : file_part) :
  In (part_mimetype part) allowed_image_types ->
  Z.of_nat (List.length (part_content part)) = 5 * 1024 * 1024 ->
  imageUploadSchema_accepts (file_of_part part) = false
  /\ imageUploadSchema_issues (file_of_part part)
     = [lit "Image size should not exceed 5MB"]
  /\ upload_single (Some part) = inl LIMIT_FILE_SIZE
  /\ post_api_upload (Some part) = NextError LIMIT_FILE_SIZE
  /\ validateFile (file_of_part part) = None.
Proof.
  intros Hin Hsize.
  assert (Hissues : imageUploadSchema_issues (file_of_part part)
                    = [lit "Image size should not exceed 5MB"]).
  { rewrite imageUploadSchema_issues_eq. cbn [file_of_part file_size file_type].
    rewrite Hsize. apply array_includes_In in Hin. rewrite Hin. reflexivity. }
  assert (Hfull : limits_fileSize <= Z.of_nat (List.length (part_content part))).
  { rewrite Hsize. unfold limits_fileSize. lia. }
  split; [|split; [exact Hissues|split; [|split]]].
  - unfold imageUploadSchema_accepts. now rewrite Hissues.
  - exact (full_upload_refused part Hin Hfull).
  - unfold post_api_upload. now rewrite (full_upload_refused part Hin Hfull).
  - unfold validateFile. cbn [file_of_part file_type file_size].
    apply array_includes_In in Hin. rewrite Hin, Hsize. reflexivity.
Qed.

(** C10 at a PNG upload of 5 * 1024 * 1024 zero bytes. *)
Lemma validators_at_size_boundary_witness :
  let part := {| part_originalname := lit "big.png";
                 part_mimetype := lit "image/png";
                 part_content := repeat 0 (Z.to_nat (5 * 1024 * 1024)) |} in
  imageUploadSchema_accepts (file_of_part part) = false
  /\ imageUploadSchema_issues (file_of_part part)
     = [lit "Image size should not exceed 5MB"]
  /\ upload_single (Some part) = inl LIMIT_FILE_SIZE
  /\ post_api_upload (Some part) = NextError LIMIT_FILE_SIZE
  /\ validateFile (file_of_part part) = None.
Proof.
  intros part. apply (validators_at_size_boundary part).
  - simpl. tauto.
  - unfold part. cbn [part_content]. rewrite repeat_length.
    apply Z2Nat.id. lia.
Defined.

(** C10 as written fails: the server does not admit a JPEG of exactly
    5 * 1024 * 1024 bytes. The middleware raises LIMIT_FILE_SIZE for it, so
    at the boundary it sides with the shared schema, which rejects the file
    too. *)
Lemma multer_refuses_file_of_limit_size :
  let part := {| part_originalname := lit "big.jpg";
                 part_mimetype := lit "image/jpeg";
                 part_content := repeat 255 (Z.to_nat (5 * 1024 * 1024)) |} in
  In (part_mimetype part) allowed_image_types
  /\ Z.of_nat (List.length (part_content part)) = 5 * 1024 * 1024
  /\ imageUploadSchema_accepts (file_of_part part) = false
  /\ upload_single (Some part) = inl LIMIT_FILE_SIZE
  /\ post_api_upload (Some part) = NextError LIMIT_FILE_SIZE.
Proof.
  intros part.
  assert (Hin : In (part_mimetype part) allowed_image_types)
    by (simpl; tauto).
  assert (Hsize : Z.of_nat (List.length (part_content part))
                  = 5 * 1024 * 1024).
  { unfold part. cbn [part_content]. rewrite repeat_length.
    apply Z2Nat.id. lia. }
  assert (Hfull : limits_fileSize <= Z.of_nat (List.length (part_content part))).
  { rewrite Hsize. unfold limits_fileSize. lia. }
  split; [exact Hin|]. split; [exact Hsize|]. split; [|split].
  - unfold imageUploadSchema_accepts. rewrite imageUploadSchema_issues_eq.
    cbn [file_of_part file_size file_type]. rewrite Hsize. reflexivity.
  - exact (full_upload_refused part Hin Hfull).
  - unfold post_api_upload. now rewrite (full_upload_refused part Hin Hfull).
Qed.

(* ================================================================= *)
(** * Further properties of the code *)

(** ** White space and trimming *)

Lemma trimStart_all_white_space (s : jsstring) :
  all_white_space (trimStart s) = all_white_space s.
Proof.
  induction s as [|c s IH]; [reflexivity|].
  cbn [trimStart]. destruct (is_white_space c) eqn:Hc.
  - rewrite IH. unfold all_white_space. cbn [forallb]. now rewrite Hc.
  - reflexivity.
Qed.

Lemma trimStart_empty (s : jsstring) :
  trimStart s = [] <-> all_white_space s = true.
Proof.
  induction s as [|c s IH]; [now split|].
  unfold all_white_space in *. cbn [trimStart forallb].
  destruct (is_white_space c); cbn [andb]; [exact IH|].
  split; discriminate.
Qed.

Lemma all_white_space_rev (s : jsstring) :
  all_white_space (rev s) = all_white_space s.
Proof.
  unfold all_white_space. induction s as [|c s IH]; [reflexivity|].
  cbn [rev forallb]. rewrite forallb_app, IH. cbn [forallb].
  rewrite andb_true_r. apply andb_comm.
Qed.

(** A string trims to nothing exactly when it is all white space. *)
Lemma trim_empty (s : jsstring) : trim s = [] <-> all_white_space s = true.
Proof.
  unfold trim, trimEnd.
  rewrite <- trimStart_all_white_space, <- all_white_space_rev,
    <- trimStart_empty.
  split; intros H.
  - apply (f_equal (@rev code_unit)) in H. now rewrite rev_involutive in H.
  - now rewrite H.
Qed.

(** ** The pipeline: every way it can go *)

Lemma transformImage_rejected (openai : OpenAI)
    (imageBase64 style : jsstring) (e : js_error) :
  chat_completions_create openai (describe_request imageBase64) = Rejected e ->
  run (transformImage openai imageBase64 style)
  = (Throw (new_Error (lit "Failed to transform image: " ++ message e)),
     [ChatCompletionsCreate (describe_request imageBase64)]).
Proof.
  intros Hchat. unfold transformImage, transformImage_body. io_simpl.
  rewrite Hchat. reflexivity.
Qed.

Lemma transformImage_no_choice (openai : OpenAI)
    (imageBase64 style : jsstring) completion :
  chat_completions_create openai (describe_request imageBase64)
    = Resolved completion ->
  choices completion = [] ->
  run (transformImage openai imageBase64 style)
  = (Throw (new_Error (lit "Failed to transform image: "
                       ++ message TypeError_undefined_message)),
     [ChatCompletionsCreate (describe_request imageBase64)]).
Proof.
  intros Hchat Hchoices. unfold transformImage, transformImage_body. io_simpl.
  rewrite Hchat. io_simpl. rewrite Hchoices. reflexivity.
Qed.

(** A first choice either carries no usable description or carries a
    text that does not trim to nothing. *)
Lemma description_cases (c : chat_choice) :
  no_description c \/ exists desc, content c = Some desc /\ trim desc <> [].
Proof.
  unfold no_description. destruct (content c) as [desc|]; [|now left].
  destruct (trim desc) as [|a d] eqn:Hd; [now left|].
  right. exists desc. split; [reflexivity|]. rewrite Hd. discriminate.
Qed.

(** X1. Whatever the two capabilities answer, [transformImage] calls the
    description capability exactly once, first, and the generation
    capability at most once, after it: the calls made are the description
    call alone, or the description call followed by one generation call for
    one 1024x1024 image of standard quality. *)
Theorem transformImage_call_discipline (openai : OpenAI)
    (imageBase64 style : jsstring) :
  snd (run (transformImage openai imageBase64 style))
  = [ChatCompletionsCreate (describe_request imageBase64)]
  \/ exists finalPrompt,
       snd (run (transformImage openai imageBase64 style))
       = [ChatCompletionsCreate (describe_request imageBase64);
          ImagesGenerate {| img_model := lit "dall-e-3";
                            img_prompt := finalPrompt;
                            img_n := 1;
                            img_size := lit "1024x1024";
                            img_quality := lit "standard" |}].
Proof.
  destruct (chat_completions_create openai (describe_request imageBase64))
    as [completion|e] eqn:Hchat.
  - destruct (choices completion) as [|c rest] eqn:Hchoices.
    + left. now rewrite (transformImage_no_choice _ _ _ _ Hchat Hchoices).
    + destruct (description_cases c) as [Hnone|(desc & Hc & Htrim)].
      * left.
        now rewrite (transformImage_undescribed _ _ _ _ _ _ Hchat Hchoices Hnone).
      * right. eexists.
        rewrite (transformImage_described _ _ _ _ _ _ _ Hchat Hchoices Hc Htrim).
        destruct (images_generate openai _) as [generated|e]; [|reflexivity].
        destruct (first_url generated) as [[|u us]|]; reflexivity.
  - left. now rewrite (transformImage_rejected _ _ _ _ Hchat).
Qed.

(** X2. [transformImage] returns a URL only in one way: the description
    call resolved with a first choice whose text does not trim to nothing,
    the generation call on the prompt built from the trimmed text resolved,
    and the URL returned is the non-empty URL of its first image. *)
Theorem transformImage_success_inversion (openai : OpenAI)
    (imageBase64 style imageUrl : jsstring) :
  fst (run (transformImage openai imageBase64 style)) = Ok imageUrl ->
  imageUrl <> []
  /\ exists completion c rest desc generated,
       chat_completions_create openai (describe_request imageBase64)
         = Resolved completion
       /\ choices completion = c :: rest
       /\ content c = Some desc
       /\ trim desc <> []
       /\ images_generate openai
            (generate_request
               (finalPrompt_of (get_property STYLE_PROMPTS style) (trim desc)))
          = Resolved generated
       /\ first_url generated = Some imageUrl.
Proof.
  destruct (chat_completions_create openai (describe_request imageBase64))
    as [completion|e] eqn:Hchat.
  - destruct (choices completion) as [|c rest] eqn:Hchoices.
    + rewrite (transformImage_no_choice _ _ _ _ Hchat Hchoices). discriminate.
    + destruct (description_cases c) as [Hnone|(desc & Hc & Htrim)].
      * rewrite (transformImage_undescribed _ _ _ _ _ _ Hchat Hchoices Hnone).
        discriminate.
      * rewrite (transformImage_described _ _ _ _ _ _ _ Hchat Hchoices Hc Htrim).
        destruct (images_generate openai _) as [generated|e] eqn:Hgen;
          [|discriminate].
        destruct (first_url generated) as [[|u us]|] eqn:Hurl;
          try discriminate.
        cbn [fst]. intros [= <-]. split; [discriminate|].
        exists completion, c, rest, desc, generated. repeat split; assumption.
  - rewrite (transformImage_rejected _ _ _ _ Hchat). discriminate.
Qed.

(** X2 on stubs that answer a description and a URL. *)
Lemma transformImage_success_inversion_witness :
  let openai :=
    stub_openai (Resolved (completion_of (Some (lit " a smiling person "))))
                (Resolved (generated_at (lit "https://img.example/1.png"))) in
  lit "https://img.example/1.png" <> []
  /\ exists completion c rest desc generated,
       chat_completions_create openai (describe_request (lit "AAEC"))
         = Resolved completion
       /\ choices completion = c :: rest
       /\ content c = Some desc
       /\ trim desc <> []
       /\ images_generate openai
            (generate_request
               (finalPrompt_of (get_property STYLE_PROMPTS (lit "lego"))
                               (trim desc)))
          = Resolved generated
       /\ first_url generated = Some (lit "https://img.example/1.png").
Proof.
  intros openai.
  apply (transformImage_success_inversion openai (lit "AAEC") (lit "lego")).
  vm_compute. reflexivity.
Defined.

(** X3. When the description is usable and the generation call resolves
    without a usable URL (no data, no first image, no URL in it, or an empty
    URL), [transformImage] fails with "Failed to transform image: Failed to
    generate image URL", both calls having been made. *)
Theorem transformImage_generation_without_url (openai : OpenAI)
    (imageBase64 style : jsstring) completion c rest desc generated :
  chat_completions_create openai (describe_request imageBase64)
    = Resolved completion ->
  choices completion = c :: rest ->
  content c = Some desc ->
  trim desc <> [] ->
  images_generate openai
    (generate_request
       (finalPrompt_of (get_property STYLE_PROMPTS style) (trim desc)))
    = Resolved generated ->
  first_url generated = None \/ first_url generated = Some [] ->
  run (transformImage openai imageBase64 style)
  = (Throw (new_Error
              (lit "Failed to transform image: Failed to generate image URL")),
     [ChatCompletionsCreate (describe_request imageBase64);
      ImagesGenerate
        (generate_request
           (finalPrompt_of (get_property STYLE_PROMPTS style) (trim desc)))]).
Proof.
  intros Hchat Hchoices Hc Htrim Hgen Hurl.
  rewrite (transformImage_described _ _ _ _ _ _ _ Hchat Hchoices Hc Htrim), Hgen.
  destruct Hurl as [-> | ->]; reflexivity.
Qed.

(** X3 on a generation stub that answers an empty list of images. *)
Lemma transformImage_generation_without_url_witness :
  let openai :=
    stub_openai (Resolved (completion_of (Some (lit "a smiling person"))))
                (Resolved {| data := Some [] |}) in
  run (transformImage openai (lit "AAEC") (lit "lego"))
  = (Throw (new_Error
              (lit "Failed to transform image: Failed to generate image URL")),
     [ChatCompletionsCreate (describe_request (lit "AAEC"));
      ImagesGenerate
        (generate_request
           (finalPrompt_of (get_property STYLE_PROMPTS (lit "lego"))
                           (trim (lit "a smiling person"))))]).
Proof.
  intros openai.
  apply (transformImage_generation_without_url openai (lit "AAEC") (lit "lego")
           (completion_of (Some (lit "a smiling person")))
           {| content := Some (lit "a smiling person") |} []
           (lit "a smiling person") {| data := Some [] |});
    try reflexivity.
  - vm_compute. discriminate.
  - left. reflexivity.
Defined.

(** X4. When the description call resolves with no choice at all,
    [transformImage] fails on reading the first choice, the failure is
    wrapped like any other, and the generation capability is not called. *)
Theorem transformImage_without_choices (openai : OpenAI)
    (imageBase64 style : jsstring) completion :
  chat_completions_create openai (describe_request imageBase64)
    = Resolved completion ->
  choices completion = [] ->
  (exists m,
      fst (run (transformImage openai imageBase64 style))
      = Throw (new_Error (lit "Failed to transform image: " ++ m))
      /\ m <> lit "Could not generate description from image.")
  /\ existsb is_generate (snd (run (transformImage openai imageBase64 style)))
     = false.
Proof.
  intros Hchat Hchoices.
  rewrite (transformImage_no_choice _ _ _ _ Hchat Hchoices). split.
  - eexists. split; [reflexivity|]. vm_compute. discriminate.
  - reflexivity.
Qed.

(** X4 on a description stub that answers an empty list of choices. *)
Lemma transformImage_without_choices_witness :
  let openai :=
    stub_openai (Resolved {| choices := [] |})
                (Resolved (generated_at (lit "https://img.example/1.png"))) in
  (exists m,
      fst (run (transformImage openai (lit "AAEC") (lit "lego")))
      = Throw (new_Error (lit "Failed to transform image: " ++ m))
      /\ m <> lit "Could not generate description from image.")
  /\ existsb is_generate
       (snd (run (transformImage openai (lit "AAEC") (lit "lego")))) = false.
Proof.
  intros openai.
  apply (transformImage_without_choices openai (lit "AAEC") (lit "lego")
           {| choices := [] |}); reflexivity.
Defined.

(** X5. Once the description call has resolved with a first choice, the
    generation capability is called exactly when that choice has a text
    that is not all white space. *)
Theorem generation_called_iff_description_usable (openai : OpenAI)
    (imageBase64 style : jsstring) completion c rest :
  chat_completions_create openai (describe_request imageBase64)
    = Resolved completion ->
  choices completion = c :: rest ->
  existsb is_generate (snd (run (transformImage openai imageBase64 style)))
  = match content c with
    | Some desc => negb (all_white_space desc)
    | None => false
    end.
Proof.
  intros Hchat Hchoices.
  destruct (description_cases c) as [Hnone|(desc & Hc & Htrim)].
  - rewrite (transformImage_undescribed _ _ _ _ _ _ Hchat Hchoices Hnone).
    unfold no_description in Hnone. destruct (content c) as [desc|];
      [|reflexivity].
    apply trim_empty in Hnone. now rewrite Hnone.
  - rewrite (transformImage_described _ _ _ _ _ _ _ Hchat Hchoices Hc Htrim), Hc.
    assert (Hws : all_white_space desc = false).
    { destruct (all_white_space desc) eqn:Hall; [|reflexivity].
      apply trim_empty in Hall. contradiction. }
    rewrite Hws.
    destruct (images_generate openai _) as [generated|e]; [|reflexivity].
    destruct (first_url generated) as [[|u us]|]; reflexivity.
Qed.

(** X5 on a description of tabs and line breaks only. *)
Lemma generation_called_iff_description_usable_witness :
  let openai :=
    stub_openai (Resolved (completion_of (Some [9; 10; 13; 32])))
                (Resolved (generated_at (lit "https://img.example/1.png"))) in
  existsb is_generate
    (snd (run (transformImage openai (lit "AAEC") (lit "lego"))))
  = negb (all_white_space [9; 10; 13; 32]).
Proof.
  intros openai.
  apply (generation_called_iff_description_usable openai (lit "AAEC")
           (lit "lego") (completion_of (Some [9; 10; 13; 32]))
           {| content := Some [9; 10; 13; 32] |} []); reflexivity.
Defined.

(** A run that returns a URL has made both calls. *)
Lemma transformImage_ok_calls (openai : OpenAI)
    (imageBase64 style imageUrl : jsstring) :
  fst (run (transformImage openai imageBase64 style)) = Ok imageUrl ->
  exists finalPrompt,
    snd (run (transformImage openai imageBase64 style))
    = [ChatCompletionsCreate (describe_request imageBase64);
       ImagesGenerate (generate_request finalPrompt)].
Proof.
  destruct (chat_completions_create openai (describe_request imageBase64))
    as [completion|e] eqn:Hchat.
  - destruct (choices completion) as [|c rest] eqn:Hchoices.
    + rewrite (transformImage_no_choice _ _ _ _ Hchat Hchoices). discriminate.
    + destruct (description_cases c) as [Hnone|(desc & Hc & Htrim)].
      * rewrite (transformImage_undescribed _ _ _ _ _ _ Hchat Hchoices Hnone).
        discriminate.
      * rewrite (transformImage_described _ _ _ _ _ _ _ Hchat Hchoices Hc Htrim).
        intros _. eexists.
        destruct (images_generate openai _) as [generated|e]; [|reflexivity].
        destruct (first_url generated) as [[|u us]|]; reflexivity.
  - rewrite (transformImage_rejected _ _ _ _ Hchat). discriminate.
Qed.

(** ** POST /api/transform *)

(** What the route does once the style is accepted and an image is
    present: it relays the pipeline. *)
Lemma post_api_transform_relays (openai : OpenAI)
    (style imageBase64 : jsstring) :
  In style style_ids ->
  imageBase64 <> [] ->
  run (post_api_transform openai
         {| body_style := VString style;
            body_imageBase64 := Some imageBase64 |})
  = match run (transformImage openai imageBase64 style) with
    | (Ok imageUrl, log) => (Ok (json 200 (TransformJson imageUrl)), log)
    | (Throw e, log) =>
        (Ok (json 500 (MessageJson
                         (message_or e (lit "Failed to transform image")))),
         log)
    end.
Proof.
  intros Hstyle Himage. unfold post_api_transform.
  cbn [body_style body_imageBase64 styleTransformSchema_safeParse].
  apply array_includes_In in Hstyle. rewrite Hstyle.
  destruct imageBase64 as [|a img]; [congruence|].
  io_simpl. unfold run.
  destruct (transformImage openai (a :: img) style []) as [[imageUrl|e] log];
    reflexivity.
Qed.

Lemma message_starts_with_prefix (m : jsstring) :
  message_or (new_Error (lit "Failed to transform image: " ++ m))
             (lit "Failed to transform image")
  = lit "Failed to transform image: " ++ m.
Proof. reflexivity. Qed.

(** X6. The route always answers, and never throws: its status is 200,
    400 or 500; with 400 no external call has been made; with 200 the body
    carries a URL and both calls have been made. *)
Theorem post_api_transform_always_responds (openai : OpenAI)
    (req_body : transform_body) :
  exists r,
    fst (run (post_api_transform openai req_body)) = Ok r
    /\ In (status r) [200; 400; 500]
    /\ (status r = 400 -> snd (run (post_api_transform openai req_body)) = [])
    /\ (status r = 200 ->
        exists imageUrl finalPrompt imageBase64,
          body r = TransformJson imageUrl
          /\ body_imageBase64 req_body = Some imageBase64
          /\ snd (run (post_api_transform openai req_body))
             = [ChatCompletionsCreate (describe_request imageBase64);
                ImagesGenerate (generate_request finalPrompt)]).
Proof.
  destruct req_body as [style_value image].
  destruct (styleTransformSchema_safeParse style_value) as [style|] eqn:Hparse.
  - destruct (safeParse_success _ _ Hparse) as [-> Hstyle].
    destruct image as [[|a img]|].
    + unfold post_api_transform. cbn [body_style body_imageBase64].
      rewrite Hparse. eexists. split; [reflexivity|].
      cbn. repeat split; try tauto; discriminate.
    + rewrite (post_api_transform_relays openai style (a :: img) Hstyle)
        by discriminate.
      destruct (run (transformImage openai (a :: img) style))
        as [[imageUrl|e] log] eqn:Hrun.
      * eexists. split; [reflexivity|]. cbn [status body json snd].
        split; [simpl; tauto|]. split; [discriminate|]. intros _.
        pose proof (transformImage_ok_calls openai (a :: img) style imageUrl)
          as Hlog.
        rewrite Hrun in Hlog. cbn [fst snd] in Hlog.
        destruct (Hlog eq_refl) as (finalPrompt & ->).
        exists imageUrl, finalPrompt, (a :: img). repeat split.
      * eexists. split; [reflexivity|]. cbn [status body json snd].
        split; [simpl; tauto|]. split; discriminate.
    + unfold post_api_transform. cbn [body_style body_imageBase64].
      rewrite Hparse. eexists. split; [reflexivity|].
      cbn. repeat split; try tauto; discriminate.
  - unfold post_api_transform. cbn [body_style]. rewrite Hparse.
    eexists. split; [reflexivity|]. cbn. repeat split; try tauto; discriminate.
Qed.

Lemma startsWith_app (p s : jsstring) : startsWith (p ++ s) p = true.
Proof.
  induction p as [|a p IH]; [now destruct s|].
  cbn [app startsWith]. now rewrite Z.eqb_refl, IH.
Qed.

(** A generation call of the pipeline asks for the prompt built from the
    value read for the style. *)
Lemma transformImage_generate_prompt (openai : OpenAI)
    (imageBase64 style : jsstring) (r : image_request) :
  In (ImagesGenerate r) (snd (run (transformImage openai imageBase64 style))) ->
  exists desc,
    r = generate_request
          (finalPrompt_of (get_property STYLE_PROMPTS style) desc).
Proof.
  destruct (chat_completions_create openai (describe_request imageBase64))
    as [completion|e] eqn:Hchat.
  - destruct (choices completion) as [|c rest] eqn:Hchoices.
    + rewrite (transformImage_no_choice _ _ _ _ Hchat Hchoices).
      intros [H|[]]; discriminate.
    + destruct (description_cases c) as [Hnone|(desc & Hc & Htrim)].
      * rewrite (transformImage_undescribed _ _ _ _ _ _ Hchat Hchoices Hnone).
        intros [H|[]]; discriminate.
      * rewrite (transformImage_described _ _ _ _ _ _ _ Hchat Hchoices Hc Htrim).
        intros Hin. exists (trim desc).
        assert (Hlog : In (ImagesGenerate r)
                         (calls_until imageBase64 Generating
                            (finalPrompt_of (get_property STYLE_PROMPTS style)
                                            (trim desc)))).
        { destruct (images_generate openai _) as [generated|e];
            [|exact Hin].
          destruct (first_url generated) as [[|u us]|]; exact Hin. }
        destruct Hlog as [H|[H|[]]]; [discriminate|]. now inversion H.
  - rewrite (transformImage_rejected _ _ _ _ Hchat).
    intros [H|[]]; discriminate.
Qed.

(** X7. For a style of the catalog and a non-empty image string the route
    relays the pipeline: a URL returned becomes a 200 response carrying it;
    an error thrown becomes a 500 response whose message is the message of
    that error, which starts with "Failed to transform image: " (the
    route's own fallback text is never used); and the external calls are
    those of the pipeline. *)
Theorem post_api_transform_relays_pipeline (openai : OpenAI)
    (style imageBase64 : jsstring) :
  In style style_ids ->
  imageBase64 <> [] ->
  let req_body := {| body_style := VString style;
                     body_imageBase64 := Some imageBase64 |} in
  (forall imageUrl,
      fst (run (transformImage openai imageBase64 style)) = Ok imageUrl ->
      fst (run (post_api_transform openai req_body))
      = Ok (json 200 (TransformJson imageUrl)))
  /\ (forall e,
         fst (run (transformImage openai imageBase64 style)) = Throw e ->
         fst (run (post_api_transform openai req_body))
         = Ok (json 500 (MessageJson (message e)))
         /\ startsWith (message e) (lit "Failed to transform image: ") = true)
  /\ snd (run (post_api_transform openai req_body))
     = snd (run (transformImage openai imageBase64 style)).
Proof.
  intros Hstyle Himage req_body. unfold req_body.
  rewrite (post_api_transform_relays openai style imageBase64 Hstyle Himage).
  pose proof (transformImage_throws_wrapped openai imageBase64 style) as Hwrap.
  destruct (run (transformImage openai imageBase64 style))
    as [[imageUrl|e] log]; cbn [fst snd] in *.
  - repeat split; [now intros ? [= ->] | discriminate | discriminate].
  - split; [discriminate|]. split; [|reflexivity].
    intros e' [= <-]. destruct (Hwrap e eq_refl) as (m & ->).
    split; [reflexivity|]. apply startsWith_app.
Qed.

(** X7 on a description call that times out. *)
Lemma post_api_transform_relays_pipeline_witness :
  let openai :=
    stub_openai (Rejected (new_Error (lit "connect ETIMEDOUT")))
                (Resolved (generated_at (lit "https://img.example/1.png"))) in
  fst (run (post_api_transform openai
              {| body_style := VString (lit "vintage");
                 body_imageBase64 := Some (lit "AAEC") |}))
  = Ok (json 500 (MessageJson
                    (lit "Failed to transform image: connect ETIMEDOUT"))).
Proof.
  intros openai.
  destruct (post_api_transform_relays_pipeline openai (lit "vintage")
              (lit "AAEC")) as (_ & Hfail & _).
  - simpl. tauto.
  - discriminate.
  - apply (Hfail (new_Error
                    (lit "Failed to transform image: connect ETIMEDOUT"))).
    reflexivity.
Defined.

(** X8. A request without image data (the field absent, or an empty
    string) is answered 400 with no external call made, whatever the
    style; the style is checked first, so the message is "Invalid style
    selected" when the style is not one of the five and "No image data
    provided" otherwise. *)
Theorem post_api_transform_without_image (openai : OpenAI)
    (style_value : js_value) :
  let answer :=
    (Ok (json 400
           (MessageJson
              (match styleTransformSchema_safeParse style_value with
               | None => lit "Invalid style selected"
               | Some _ => lit "No image data provided"
               end))),
     @nil call) in
  run (post_api_transform openai
         {| body_style := style_value; body_imageBase64 := None |}) = answer
  /\ run (post_api_transform openai
            {| body_style := style_value; body_imageBase64 := Some [] |})
     = answer.
Proof.
  intros answer. unfold answer, post_api_transform.
  cbn [body_style body_imageBase64].
  destruct (styleTransformSchema_safeParse style_value); split; reflexivity.
Qed.

(** X9. Every image the route asks the generation capability for is asked
    with a prompt that starts with the template of the requested style,
    which is one of the catalog, followed by the separator; the text
    "undefined" never takes the place of the template. *)
Theorem post_api_transform_prompts_start_with_template (openai : OpenAI)
    (req_body : transform_body) (r : image_request) :
  In (ImagesGenerate r) (snd (run (post_api_transform openai req_body))) ->
  exists style template rest,
    body_style req_body = VString style
    /\ assoc style STYLE_PROMPTS = Some template
    /\ template <> []
    /\ img_prompt r = template ++ content_separator ++ rest.
Proof.
  destruct req_body as [style_value image].
  destruct (styleTransformSchema_safeParse style_value) as [style|] eqn:Hparse.
  - destruct (safeParse_success _ _ Hparse) as [-> Hstyle].
    destruct image as [[|a img]|].
    + unfold post_api_transform. cbn [body_style body_imageBase64].
      rewrite Hparse. intros [].
    + rewrite (post_api_transform_relays openai style (a :: img) Hstyle)
        by discriminate.
      intros Hin.
      assert (Hlog : In (ImagesGenerate r)
                        (snd (run (transformImage openai (a :: img) style)))).
      { destruct (run (transformImage openai (a :: img) style))
          as [[imageUrl|e] log]; exact Hin. }
      destruct (transformImage_generate_prompt _ _ _ _ Hlog) as (desc & ->).
      destruct (style_has_template style Hstyle) as (template & Hown & Hne).
      exists style, template, (desc ++ closing_instruction).
      repeat split; try assumption.
      * unfold get_property in Hown.
        destruct (assoc style STYLE_PROMPTS) as [t|]; [now inversion Hown|].
        destruct (assoc style Object_prototype); discriminate.
      * cbn [generate_request img_prompt]. unfold finalPrompt_of.
        now rewrite Hown.
    + unfold post_api_transform. cbn [body_style body_imageBase64].
      rewrite Hparse. intros [].
  - unfold post_api_transform. cbn [body_style]. rewrite Hparse. intros [].
Qed.

(** X9 on a run that generates an image in the ghibli style. *)
Lemma post_api_transform_prompts_start_with_template_witness :
  let openai :=
    stub_openai (Resolved (completion_of (Some (lit "a smiling person"))))
                (Resolved (generated_at (lit "https://img.example/1.png"))) in
  let req_body := {| body_style := VString (lit "ghibli");
                     body_imageBase64 := Some (lit "AAEC") |} in
  exists style template rest,
    body_style req_body = VString style
    /\ assoc style STYLE_PROMPTS = Some template
    /\ template <> []
    /\ img_prompt
         (generate_request
            (finalPrompt_of (get_property STYLE_PROMPTS (lit "ghibli"))
                            (lit "a smiling person")))
       = template ++ content_separator ++ rest.
Proof.
  intros openai req_body.
  apply (post_api_transform_prompts_start_with_template openai req_body).
  vm_compute. right. left. reflexivity.
Defined.

(** ** POST /api/upload *)

Lemma fileFilter_never_skips (part : file_part) : fileFilter part <> inr false.
Proof.
  unfold fileFilter.
  destruct (startsWith (part_mimetype part) (lit "image/")); cbn [negb];
    [|discriminate].
  destruct (array_includes allowed_image_types (part_mimetype part));
    discriminate.
Qed.

(** When the middleware lets a part through. *)
Lemma upload_single_accepts_iff (part : file_part) :
  (exists file, upload_single (Some part) = inr file)
  <-> In (part_mimetype part) allowed_image_types
      /\ Z.of_nat (List.length (part_content part)) < limits_fileSize.
Proof.
  split.
  - intros (file & Hup). unfold upload_single in Hup.
    destruct (in_dec (list_eq_dec Z.eq_dec) (part_mimetype part)
                allowed_image_types) as [Hin|Hnot].
    + split; [assumption|].
      rewrite (allowed_type_passes_filter part Hin) in Hup.
      destruct (limits_fileSize <=? _) eqn:Hlt; [discriminate|].
      now apply Z.leb_gt.
    + destruct (other_type_fails_filter part Hnot) as (e & He & _).
      rewrite He in Hup. discriminate.
  - intros [Hin Hle]. eexists. now apply valid_upload_accepted.
Qed.

(** X10. The upload route answers a request that carries a file part
    exactly when the declared type is one of the three and the content is
    shorter than [limits.fileSize] bytes; the answer is then 200, and the
    name returned is the original name. In every other case the request
    ends in an error handed on by the middleware, never in a response of
    the route. The route's own 400 "No image file uploaded" is for a
    request without a file part. *)
Theorem post_api_upload_answers_iff (part : file_part) :
  ((exists r, post_api_upload (Some part) = Responded r)
   <-> In (part_mimetype part) allowed_image_types
       /\ Z.of_nat (List.length (part_content part)) < limits_fileSize)
  /\ (forall r, post_api_upload (Some part) = Responded r ->
        status r = 200
        /\ exists imageBase64,
             body r = UploadJson imageBase64 (part_originalname part))
  /\ post_api_upload None
     = Responded (json 400 (MessageJson (lit "No image file uploaded"))).
Proof.
  assert (Hfwd : forall r, post_api_upload (Some part) = Responded r ->
            In (part_mimetype part) allowed_image_types
            /\ Z.of_nat (List.length (part_content part)) < limits_fileSize).
  { intros r Hr. apply upload_single_accepts_iff. unfold post_api_upload in Hr.
    destruct (upload_single (Some part)) as [e|file]; [discriminate|].
    now exists file. }
  split; [split|split; [|reflexivity]].
  - intros (r & Hr). exact (Hfwd r Hr).
  - intros [Hin Hle]. unfold post_api_upload.
    rewrite (valid_upload_accepted part Hin Hle). now eexists.
  - intros r Hr. destruct (Hfwd r Hr) as [Hin Hle].
    unfold post_api_upload in Hr.
    rewrite (valid_upload_accepted part Hin Hle) in Hr.
    injection Hr as <-. split; [reflexivity|]. now eexists.
Qed.

(** ** The shape of the base64 text *)

Lemma char_of_is_base64 (s : Z) : base64_char_check s = true.
Proof.
  unfold base64_char_check, Base64.char_of.
  assert (Htable : forallb (fun c => is_base64_char c && negb (c =? COMMA))
                           (Base64.pad :: Base64.alphabet) = true)
    by (vm_compute; reflexivity).
  rewrite forallb_forall in Htable. apply Htable.
  destruct (nth_in_or_default (Z.to_nat s) Base64.alphabet Base64.pad)
    as [Hin| ->]; [now right | now left].
Qed.

Lemma char_of_shape (s : Z) :
  is_base64_char (Base64.char_of s) = true
  /\ negb (Base64.char_of s =? COMMA) = true.
Proof. apply andb_prop. apply char_of_is_base64. Qed.

Lemma encode_all (p : code_unit -> bool) (bytes : list Z) :
  (forall s, p (Base64.char_of s) = true) ->
  p Base64.pad = true ->
  forallb p (Base64.encode bytes) = true.
Proof.
  intros Hchar Hpad.
  induction bytes as [|b0|b0 b1|b0 b1 b2 rest IH] using Base64Facts.list_ind3;
    cbn [Base64.encode app forallb]; rewrite ?Hchar, ?Hpad, ?IH; reflexivity.
Qed.

Lemma encode_shape (bytes : list Z) :
  forallb is_base64_char (Base64.encode bytes) = true
  /\ comma_free (Base64.encode bytes) = true.
Proof.
  split; apply encode_all; try reflexivity; intros s; apply char_of_shape.
Qed.

Lemma encode_empty (bytes : list Z) : Base64.encode bytes = [] <-> bytes = [].
Proof.
  split; [|now intros ->].
  destruct bytes as [|b0 [|b1 [|b2 rest]]]; [reflexivity| | |]; discriminate.
Qed.

(** X11. The text [Buffer.toString("base64")] gives for n bytes has four
    characters for every three bytes, the last group rounded up; it is made
    of characters of the base64 alphabet and padding only, so it has no
    comma; and it is empty only for no bytes. *)
Theorem base64_text_shape (bytes : list Z) :
  List.length (Base64.encode bytes)
  = (4 * ((List.length bytes + 2) / 3))%nat
  /\ forallb is_base64_char (Base64.encode bytes) = true
  /\ comma_free (Base64.encode bytes) = true
  /\ (Base64.encode bytes = [] <-> bytes = []).
Proof.
  split; [apply Base64Facts.encode_length|].
  destruct (encode_shape bytes) as [Hchars Hcomma].
  split; [exact Hchars|]. split; [exact Hcomma | apply encode_empty].
Qed.

(** X12. From the upload to the description call. For a valid upload and a
    style of the catalog, posting the string the upload route returned to
    the transform route either is answered 400 "No image data provided"
    with no external call (exactly when the uploaded file was empty), or
    starts with a description call whose image is the data URL
    "data:image/jpeg;base64," followed by that string, whatever type the
    upload declared. *)
Theorem uploaded_image_reaches_description_call (openai : OpenAI)
    (part : file_part) (style : jsstring) :
  In (part_mimetype part) allowed_image_types ->
  Z.of_nat (List.length (part_content part)) < limits_fileSize ->
  In style style_ids ->
  let imageBase64 := Base64.encode (part_content part) in
  let req_body := {| body_style := VString style;
                     body_imageBase64 := Some imageBase64 |} in
  post_api_upload (Some part)
  = Responded (json 200 (UploadJson imageBase64 (part_originalname part)))
  /\ (part_content part = [] ->
      run (post_api_transform openai req_body)
      = (Ok (json 400 (MessageJson (lit "No image data provided"))), []))
  /\ (part_content part <> [] ->
      exists r rest,
        run (post_api_transform openai req_body)
        = (r,
           ChatCompletionsCreate
             {| chat_model := lit "gpt-4o";
                chat_text := describe_instruction;
                chat_image_url := lit "data:image/jpeg;base64," ++ imageBase64;
                chat_max_tokens := 300 |} :: rest)).
Proof.
  intros Hin Hle Hstyle imageBase64 req_body. split; [|split].
  - unfold post_api_upload. now rewrite (valid_upload_accepted part Hin Hle).
  - intros Hempty. unfold req_body, imageBase64. rewrite Hempty.
    unfold post_api_transform.
    cbn [body_style body_imageBase64 styleTransformSchema_safeParse].
    apply array_includes_In in Hstyle. now rewrite Hstyle.
  - intros Hnonempty.
    assert (Himage : imageBase64 <> []).
    { unfold imageBase64. now rewrite encode_empty. }
    unfold req_body.
    rewrite (post_api_transform_relays openai style imageBase64 Hstyle Himage).
    destruct (transformImage_describes_first openai imageBase64 style)
      as (r & rest & ->).
    destruct r as [imageUrl|e]; eexists; eexists; reflexivity.
Qed.

(** X12 on a WebP upload of three bytes. *)
Lemma uploaded_image_reaches_description_call_witness :
  let openai :=
    stub_openai (Resolved (completion_of (Some (lit "a smiling person"))))
                (Resolved (generated_at (lit "https://img.example/1.png"))) in
  let part := {| part_originalname := lit "cat.webp";
                 part_mimetype := lit "image/webp";
                 part_content := [82; 73; 70] |} in
  post_api_upload (Some part)
  = Responded (json 200 (UploadJson (Base64.encode (part_content part))
                                    (part_originalname part))).
Proof.
  intros openai part.
  apply (uploaded_image_reaches_description_call openai part (lit "anime")).
  - simpl. tauto.
  - vm_compute. reflexivity.
  - simpl. tauto.
Defined.

(** ** The client's checks against the server's *)

Lemma validateFile_passes_iff (file : File) :
  validateFile file = None
  <-> In (file_type file) allowed_image_types
      /\ file_size file <= 5 * 1024 * 1024.
Proof.
  unfold validateFile.
  destruct (array_includes allowed_image_types (file_type file)) eqn:Hin;
    cbn [negb].
  - apply array_includes_In in Hin.
    destruct (file_size file >? 5 * 1024 * 1024) eqn:Hgt.
    + apply Z.gtb_lt in Hgt. split; [discriminate|]. intros [_ Hle]. lia.
    + split; [|reflexivity]. intros _. split; [assumption|].
      pose proof (Zgt_cases (file_size file) (5 * 1024 * 1024)) as Hc.
      rewrite Hgt in Hc. exact Hc.
  - apply array_includes_not_In in Hin. split; [discriminate|].
    intros [Hallowed _]. contradiction.
Qed.

(** X13. The client's check before sending is one byte wider than the
    server's middleware: multer lets a part through exactly when
    [validateFile] finds nothing to report and the part is not exactly
    5 * 1024 * 1024 bytes long. A file of that size and of an accepted
    type passes the client's check and is then refused by the server; on
    every file the server agrees with the shared [imageUploadSchema]. *)
Theorem validateFile_against_server (part : file_part) :
  ((exists file, upload_single (Some part) = inr (Some file))
   <-> validateFile (file_of_part part) = None
       /\ Z.of_nat (List.length (part_content part)) <> 5 * 1024 * 1024)
  /\ ((exists file, upload_single (Some part) = inr (Some file))
      <-> imageUploadSchema_accepts (file_of_part part) = true).
Proof.
  assert (Hserver :
            (exists file, upload_single (Some part) = inr (Some file))
            <-> In (part_mimetype part) allowed_image_types
                /\ Z.of_nat (List.length (part_content part)) < limits_fileSize).
  { rewrite <- upload_single_accepts_iff. split.
    - intros (file & Hup). now exists (Some file).
    - intros (file & Hup). destruct file as [file|]; [now exists file|].
      exfalso. unfold upload_single in Hup.
      pose proof (fileFilter_never_skips part) as Hskip.
      destruct (fileFilter part) as [e|[|]]; [discriminate| |congruence].
      destruct (limits_fileSize <=? _); discriminate. }
  rewrite Hserver. unfold limits_fileSize. split.
  - rewrite validateFile_passes_iff. cbn [file_of_part file_type file_size].
    split; [intros [Hin Hlt] | intros [[Hin Hle] Hne]];
      repeat split; try assumption; lia.
  - unfold imageUploadSchema_accepts. rewrite imageUploadSchema_issues_eq.
    unfold MAX_UPLOAD_BYTES. cbn [file_of_part file_type file_size].
    destruct (Z.ltb_spec (Z.of_nat (List.length (part_content part)))
                (5 * 1024 * 1024)) as [Hlt|Hge];
      destruct (array_includes allowed_image_types (part_mimetype part))
        eqn:Hin; cbn [app].
    + apply array_includes_In in Hin. split; [reflexivity | now split].
    + apply array_includes_not_In in Hin. split; [|discriminate].
      intros [Hallowed _]. contradiction.
    + split; [|discriminate]. intros [_ Hlt]. lia.
    + split; [|discriminate]. intros [_ Hlt]. lia.
Qed.

(** X14. The shared [imageUploadSchema] accepts exactly the files the
    client's [validateFile] passes, except those of exactly 5 * 1024 * 1024
    bytes, which only the schema turns down. *)
Theorem imageUploadSchema_against_validateFile (file : File) :
  imageUploadSchema_accepts file = true
  <-> validateFile file = None /\ file_size file <> 5 * 1024 * 1024.
Proof.
  rewrite validateFile_passes_iff. unfold imageUploadSchema_accepts.
  rewrite imageUploadSchema_issues_eq. unfold MAX_UPLOAD_BYTES.
  destruct (Z.ltb_spec (file_size file) (5 * 1024 * 1024)) as [Hlt|Hge];
    destruct (array_includes allowed_image_types (file_type file)) eqn:Hin;
    cbn [app].
  - apply array_includes_In in Hin. split; [|reflexivity].
    intros _. split; [split; [assumption | lia] | lia].
  - apply array_includes_not_In in Hin. split; [discriminate|].
    intros [[Hallowed _] _]. contradiction.
  - split; [discriminate|]. intros [[_ Hle] Hne]. lia.
  - split; [discriminate|]. intros [[_ Hle] Hne]. lia.
Qed.

(** ** From the data URL back to the base64 text *)

Lemma split_comma_free (s : jsstring) :
  comma_free s = true -> split COMMA s = [s].
Proof.
  unfold comma_free. induction s as [|c s IH]; [reflexivity|].
  cbn [forallb split]. intros Hall. apply andb_prop in Hall as [Hc Hs].
  apply negb_true_iff in Hc. rewrite Hc, (IH Hs). reflexivity.
Qed.

Lemma split_at_first_comma (a b : jsstring) :
  comma_free a = true -> split COMMA (a ++ COMMA :: b) = a :: split COMMA b.
Proof.
  unfold comma_free. induction a as [|c a IH]; intros Hall.
  - cbn [app split]. now rewrite Z.eqb_refl.
  - cbn [forallb] in Hall. apply andb_prop in Hall as [Hc Ha].
    apply negb_true_iff in Hc. cbn [app split]. rewrite Hc, (IH Ha).
    reflexivity.
Qed.

Lemma dataUrl_pieces (file_type imageBase64 : jsstring) :
  comma_free file_type = true ->
  split COMMA (dataUrl_of file_type imageBase64)
  = (lit "data:" ++ file_type ++ lit ";base64") :: split COMMA imageBase64.
Proof.
  intros Htype. unfold dataUrl_of.
  change (lit ";base64,") with (lit ";base64" ++ [COMMA]).
  rewrite <- !app_assoc. cbn [app].
  rewrite !app_assoc. rewrite <- (app_assoc (lit "data:")).
  apply split_at_first_comma.
  unfold comma_free in *. rewrite !forallb_app.
  apply andb_true_intro. split; [reflexivity|].
  apply andb_true_intro. split; [exact Htype | reflexivity].
Qed.

(** X15. The workspace recovers the base64 text from the data URL the
    uploader built: for a selected style, a file type without a comma and a
    text without a comma, [handleTransform] starts the mutation with that
    style and exactly that text. With no style selected (null or the empty
    string) it starts nothing. *)
Theorem handleTransform_recovers_base64
    (style file_type imageBase64 : jsstring) :
  style <> [] ->
  comma_free file_type = true ->
  comma_free imageBase64 = true ->
  handleTransform (Some style) (Some (dataUrl_of file_type imageBase64))
  = Some {| var_style := style; var_imageBase64 := Some imageBase64 |}
  /\ handleTransform None (Some (dataUrl_of file_type imageBase64)) = None
  /\ handleTransform (Some []) (Some (dataUrl_of file_type imageBase64)) = None.
Proof.
  intros Hstyle Htype Hb64. split; [|split; reflexivity].
  destruct style as [|c style]; [congruence|].
  unfold handleTransform.
  rewrite (dataUrl_pieces _ _ Htype), (split_comma_free _ Hb64). reflexivity.
Qed.

(** X15 on a PNG data URL. *)
Lemma handleTransform_recovers_base64_witness :
  handleTransform (Some (lit "anime"))
                  (Some (dataUrl_of (lit "image/png") (lit "iVBORw0KGgo=")))
  = Some {| var_style := lit "anime";
            var_imageBase64 := Some (lit "iVBORw0KGgo=") |}
  /\ handleTransform None
       (Some (dataUrl_of (lit "image/png") (lit "iVBORw0KGgo="))) = None
  /\ handleTransform (Some [])
       (Some (dataUrl_of (lit "image/png") (lit "iVBORw0KGgo="))) = None.
Proof.
  apply (handleTransform_recovers_base64 (lit "anime") (lit "image/png")
           (lit "iVBORw0KGgo=")).
  - discriminate.
  - reflexivity.
  - reflexivity.
Defined.

Lemma allowed_type_comma_free (t : jsstring) :
  In t allowed_image_types -> comma_free t = true.
Proof.
  simpl. intros Hin.
  repeat (destruct Hin as [<-|Hin]; [reflexivity|]). destruct Hin.
Qed.

(** X16. From the upload to the transformation request. For a valid upload
    and a selected style, the text the workspace sends for transformation
    is the one the upload route returned, and decoding it gives back the
    bytes of the uploaded file. *)
Theorem uploaded_bytes_reach_transform_request (part : file_part)
    (style : jsstring) :
  In (part_mimetype part) allowed_image_types ->
  Z.of_nat (List.length (part_content part)) < limits_fileSize ->
  Forall Base64.is_byte (part_content part) ->
  style <> [] ->
  exists imageBase64,
    post_api_upload (Some part)
    = Responded (json 200 (UploadJson imageBase64 (part_originalname part)))
    /\ handleTransform (Some style)
         (Some (dataUrl_of (part_mimetype part) imageBase64))
       = Some {| var_style := style; var_imageBase64 := Some imageBase64 |}
    /\ Base64.decode imageBase64 = Some (part_content part).
Proof.
  intros Hin Hle Hbytes Hstyle.
  exists (Base64.encode (part_content part)). split; [|split].
  - unfold post_api_upload. now rewrite (valid_upload_accepted part Hin Hle).
  - destruct style as [|c style]; [congruence|]. unfold handleTransform.
    rewrite (dataUrl_pieces _ _ (allowed_type_comma_free _ Hin)).
    destruct (encode_shape (part_content part)) as [_ Hcomma].
    now rewrite (split_comma_free _ Hcomma).
  - now apply Base64Facts.decode_encode.
Qed.

(** X16 on a JPEG upload of four bytes. *)
Lemma uploaded_bytes_reach_transform_request_witness :
  let part := {| part_originalname := lit "cat.jpg";
                 part_mimetype := lit "image/jpeg";
                 part_content := [255; 216; 255; 224] |} in
  exists imageBase64,
    post_api_upload (Some part)
    = Responded (json 200 (UploadJson imageBase64 (part_originalname part)))
    /\ handleTransform (Some (lit "lego"))
         (Some (dataUrl_of (part_mimetype part) imageBase64))
       = Some {| var_style := lit "lego";
                 var_imageBase64 := Some imageBase64 |}
    /\ Base64.decode imageBase64 = Some (part_content part).
Proof.
  intros part.
  apply (uploaded_bytes_reach_transform_request part (lit "lego")).
  - simpl. tauto.
  - vm_compute. reflexivity.
  - unfold part, Base64.is_byte. cbn [part_content].
    repeat constructor; lia.
  - discriminate.
Defined.

(** X17. [onDrop] looks at the first file only: the files after it change
    nothing; with no file it does nothing; otherwise it either starts the
    upload of the first file, exactly when its type is one of the three and
    it has at most 5 * 1024 * 1024 bytes, or reports the non-empty message
    of [validateFile]. *)
Theorem onDrop_first_file_only (file : File) (others : list File) :
  onDrop [] = DoNothing
  /\ onDrop (file :: others) = onDrop [file]
  /\ onDrop (file :: others) <> DoNothing
  /\ (onDrop (file :: others) = StartUpload file
      <-> In (file_type file) allowed_image_types
          /\ file_size file <= 5 * 1024 * 1024)
  /\ (forall reported,
        onDrop (file :: others) = ReportError reported ->
        validateFile file = Some reported /\ reported <> []).
Proof.
  split; [reflexivity|]. split; [reflexivity|].
  rewrite <- validateFile_passes_iff. unfold onDrop.
  assert (Hmsg : forall m, validateFile file = Some m -> m <> []).
  { unfold validateFile. intros m.
    destruct (negb _); [intros [= <-]; discriminate|].
    destruct (_ >? _); [intros [= <-]; discriminate | discriminate]. }
  destruct (validateFile file) as [[|c m]|].
  - exfalso. now apply (Hmsg [] eq_refl).
  - split; [discriminate|]. split; [split; discriminate|].
    intros reported [= <-]. split; [reflexivity | discriminate].
  - split; [discriminate|]. split; [split; reflexivity|]. discriminate.
Qed.

(** X18. [getStyleGradient] gives every style of the catalog a gradient of
    its own, different from the gray fallback and from the gradients of
    the other styles; any other string that does not name a member of
    [Object.prototype] gets the gray fallback. *)
Theorem getStyleGradient_covers_catalog (styleId : jsstring) :
  (In styleId style_ids ->
   exists gradient,
     getStyleGradient styleId = Own gradient
     /\ assoc styleId gradients = Some gradient
     /\ gradient <> lit "from-gray-400 to-gray-600")
  /\ NoDup (map snd gradients)
  /\ (~ In styleId style_ids ->
      assoc styleId Object_prototype = None ->
      getStyleGradient styleId = Own (lit "from-gray-400 to-gray-600")).
Proof.
  split; [|split].
  - intros Hin. simpl in Hin.
    repeat (destruct Hin as [<-|Hin];
            [eexists; split; [reflexivity|];
             split; [reflexivity | discriminate]|]).
    destruct Hin.
  - repeat constructor; simpl; intuition discriminate.
  - intros Hnot Hproto. unfold getStyleGradient, get_property.
    rewrite assoc_not_In by exact Hnot. now rewrite Hproto.
Qed.

(** ** The record store, one creation after another *)

Lemma find_app {A} (p : A -> bool) (l l' : list A) :
  find p (l ++ l')
  = match find p l with
    | Some x => Some x
    | None => find p l'
    end.
Proof.
  induction l as [|a l IH]; [reflexivity|].
  cbn [app find]. destruct (p a); [reflexivity | exact IH].
Qed.

Lemma run_history_app (h h' : list creation) :
  run_history (h ++ h') = continue_history (run_history h) h'.
Proof. unfold run_history, continue_history. apply fold_left_app. Qed.

(** Going on with a history only adds records, at the end. *)
Lemma continue_history_extends (h : list creation)
    (st : MemStorage * created) :
  exists us ims ts,
    created_users (snd (continue_history st h)) = created_users (snd st) ++ us
    /\ created_images (snd (continue_history st h))
       = created_images (snd st) ++ ims
    /\ created_transformations (snd (continue_history st h))
       = created_transformations (snd st) ++ ts.
Proof.
  revert st. induction h as [|c h IH]; intros st.
  - exists [], [], []. cbn. now rewrite !app_nil_r.
  - change (continue_history st (c :: h))
      with (continue_history (step st c) h).
    destruct (IH (step st c)) as (us & ims & ts & Hu & Hi & Ht).
    rewrite Hu, Hi, Ht. destruct st as [s r].
    destruct c as [u|i now|t now]; cbn [step createUser createImage
      createTransformation snd created_users created_images
      created_transformations]; rewrite <- ?app_assoc;
      do 3 eexists; repeat split.
Qed.

(** The tables of the store a history leads to, as lookups on the records
    made. *)
Lemma run_history_lookups (h : list creation) :
  let s := fst (run_history h) in
  let r := snd (run_history h) in
  (forall id, getUser s id = find (fun v => User.id v =? id) (created_users r))
  /\ (forall id,
         getImage s id = find (fun v => Image.id v =? id) (created_images r))
  /\ (forall id,
         getTransformation s id
         = find (fun v => Transformation.id v =? id)
                (created_transformations r))
  /\ JsMap.values (users s) = created_users r
  /\ JsMap.values (transformations s) = created_transformations r.
Proof.
  intros s r.
  destruct (run_history_store_of h) as ((Hu & _) & (Hi & _) & (Ht & _)).
  fold s in Hu, Hi, Ht. fold r in Hu, Hi, Ht.
  unfold getUser, getImage, getTransformation. rewrite Hu, Hi, Ht.
  repeat split; intros; try apply get_entries_of; apply values_entries_of.
Qed.

(** X19. Records are never lost or changed: whatever is found under an
    identifier after a history is still found there, the same, after any
    further creations, for each of the three kinds. *)
Theorem created_records_persist (h h' : list creation) (id : Z) :
  (forall user,
      getUser (fst (run_history h)) id = Some user ->
      getUser (fst (run_history (h ++ h'))) id = Some user)
  /\ (forall image,
         getImage (fst (run_history h)) id = Some image ->
         getImage (fst (run_history (h ++ h'))) id = Some image)
  /\ (forall transformation,
         getTransformation (fst (run_history h)) id = Some transformation ->
         getTransformation (fst (run_history (h ++ h'))) id
         = Some transformation).
Proof.
  destruct (run_history_lookups h) as (Hu & Hi & Ht & _).
  destruct (run_history_lookups (h ++ h')) as (Hu' & Hi' & Ht' & _).
  destruct (continue_history_extends h' (run_history h))
    as (us & ims & ts & Eu & Ei & Et).
  rewrite <- run_history_app in Eu, Ei, Et.
  repeat split; intros v Hv.
  - rewrite Hu', Eu, find_app. rewrite Hu in Hv. now rewrite Hv.
  - rewrite Hi', Ei, find_app. rewrite Hi in Hv. now rewrite Hv.
  - rewrite Ht', Et, find_app. rewrite Ht in Hv. now rewrite Hv.
Qed.

(** X20. Creating a record and looking it up. On the store reached by any
    history, each create method returns a record whose identifier is one
    more than the number of records of its kind made so far; that
    identifier was absent before the call and gives the returned record
    after it; the record carries the fields it was given and, for images
    and transformations, the time of the call. *)
Theorem create_then_get (h : list creation) (insertUser : InsertUser.t)
    (insertImage : InsertImage.t)
    (insertTransformation : InsertTransformation.t) (now : jsstring) :
  let s := fst (run_history h) in
  let r := snd (run_history h) in
  (let user := fst (createUser s insertUser) in
   let s' := snd (createUser s insertUser) in
   User.id user = Z.of_nat (List.length (created_users r)) + 1
   /\ getUser s (User.id user) = None
   /\ getUser s' (User.id user) = Some user
   /\ User.username user = InsertUser.username insertUser
   /\ User.password user = InsertUser.password insertUser)
  /\ (let image := fst (createImage s insertImage now) in
      let s' := snd (createImage s insertImage now) in
      Image.id image = Z.of_nat (List.length (created_images r)) + 1
      /\ getImage s (Image.id image) = None
      /\ getImage s' (Image.id image) = Some image
      /\ Image.originalFilename image
         = InsertImage.originalFilename insertImage
      /\ Image.originalUrl image = InsertImage.originalUrl insertImage
      /\ Image.userId image = InsertImage.userId insertImage
      /\ Image.createdAt image = now)
  /\ (let transformation :=
        fst (createTransformation s insertTransformation now) in
      let s' := snd (createTransformation s insertTransformation now) in
      Transformation.id transformation
      = Z.of_nat (List.length (created_transformations r)) + 1
      /\ getTransformation s (Transformation.id transformation) = None
      /\ getTransformation s' (Transformation.id transformation)
         = Some transformation
      /\ Transformation.imageId transformation
         = InsertTransformation.imageId insertTransformation
      /\ Transformation.style transformation
         = InsertTransformation.style insertTransformation
      /\ Transformation.transformedUrl transformation
         = InsertTransformation.transformedUrl insertTransformation
      /\ Transformation.createdAt transformation = now).
Proof.
  intros s r.
  destruct (run_history_store_of h) as (Hu & Hi & Ht).
  fold s in Hu, Hi, Ht. fold r in Hu, Hi, Ht.
  split; [|split].
  - intros user s'.
    pose proof (table_of_create User.id _ _ _ user Hu eq_refl) as Hnew.
    apply table_of_as_specified in Hu. apply table_of_as_specified in Hnew.
    destruct Hu as ((Hseq & _) & _ & Habsent).
    destruct Hnew as (_ & Hfound & _).
    assert (Hid : User.id user = Z.of_nat (List.length (created_users r)) + 1).
    { destruct (run_history_store_of h) as ((_ & _ & Hc) & _). exact Hc. }
    split; [exact Hid|]. split; [|split; [|split; reflexivity]].
    + apply Habsent. rewrite Hseq, length_map, first_ids_bounds. lia.
    + apply (Hfound user). apply in_or_app. right. now left.
  - intros image s'.
    pose proof (table_of_create Image.id _ _ _ image Hi eq_refl) as Hnew.
    apply table_of_as_specified in Hi. apply table_of_as_specified in Hnew.
    destruct Hi as ((Hseq & _) & _ & Habsent).
    destruct Hnew as (_ & Hfound & _).
    assert (Hid : Image.id image
                  = Z.of_nat (List.length (created_images r)) + 1).
    { destruct (run_history_store_of h) as (_ & (_ & _ & Hc) & _). exact Hc. }
    split; [exact Hid|]. split; [|split; [|repeat split]].
    + apply Habsent. rewrite Hseq, length_map, first_ids_bounds. lia.
    + apply (Hfound image). apply in_or_app. right. now left.
  - intros transformation s'.
    pose proof (table_of_create Transformation.id _ _ _ transformation
                  Ht eq_refl) as Hnew.
    apply table_of_as_specified in Ht. apply table_of_as_specified in Hnew.
    destruct Ht as ((Hseq & _) & _ & Habsent).
    destruct Hnew as (_ & Hfound & _).
    assert (Hid : Transformation.id transformation
                  = Z.of_nat (List.length (created_transformations r)) + 1).
    { destruct (run_history_store_of h) as (_ & _ & (_ & _ & Hc)). exact Hc. }
    split; [exact Hid|]. split; [|split; [|repeat split]].
    + apply Habsent. rewrite Hseq, length_map, first_ids_bounds. lia.
    + apply (Hfound transformation). apply in_or_app. right. now left.
Qed.

(** X21. Looking users up by name: the first one wins. On the store
    reached by any history, [getUserByUsername] gives the earliest created
    user with that name, and absent when no user has it. So after one more
    [createUser] a name that was taken still gives the earlier user, never
    the new one; a name that was free gives the new user when it is the
    name just inserted. *)
Theorem getUserByUsername_first_wins (h : list creation)
    (insertUser : InsertUser.t) (name : jsstring) :
  let s := fst (run_history h) in
  let r := snd (run_history h) in
  let user := fst (createUser s insertUser) in
  let s' := snd (createUser s insertUser) in
  getUserByUsername s name
  = find (fun u => JsString.eqb (User.username u) name) (created_users r)
  /\ getUserByUsername s' name
     = match getUserByUsername s name with
       | Some earlier => Some earlier
       | None =>
           if JsString.eqb (InsertUser.username insertUser) name
           then Some user else None
       end.
Proof.
  intros s r user s'.
  destruct (run_history_store_of h) as (Hu & _).
  fold s in Hu. fold r in Hu.
  pose proof (table_of_create User.id _ _ _ user Hu eq_refl) as (Hnew & _).
  destruct Hu as (Hold & _).
  unfold getUserByUsername.
  change (users s') with (JsMap.set (users s) (userIdCounter s) user).
  rewrite Hnew, Hold, !values_entries_of, find_app.
  split; [reflexivity|].
  destruct (find _ (created_users r)); reflexivity.
Qed.

(** X22. Creating a transformation and listing by image. On the store
    reached by any history, after [createTransformation] the list for an
    image is the list from before, with the new transformation added at the
    end when it names that image and unchanged when it names another. No
    image has to exist under the identifier named: the images are neither
    read nor changed. *)
Theorem createTransformation_then_list (h : list creation)
    (insertTransformation : InsertTransformation.t) (now : jsstring)
    (imageId : Z) :
  let s := fst (run_history h) in
  let transformation := fst (createTransformation s insertTransformation now) in
  let s' := snd (createTransformation s insertTransformation now) in
  getTransformationsByImageId s' imageId
  = getTransformationsByImageId s imageId
    ++ (if InsertTransformation.imageId insertTransformation =? imageId
        then [transformation] else [])
  /\ images s' = images s.
Proof.
  intros s transformation s'. split; [|reflexivity].
  destruct (run_history_store_of h) as (_ & _ & Ht). fold s in Ht.
  pose proof (table_of_create Transformation.id _ _ _ transformation
                Ht eq_refl) as (Hnew & _).
  destruct Ht as (Hold & _).
  unfold getTransformationsByImageId.
  change (transformations s')
    with (JsMap.set (transformations s) (transformationIdCounter s)
            transformation).
  rewrite Hnew, Hold, !values_entries_of, filter_app. reflexivity.
Qed.

(** ** The pipeline with Gemini *)

Ltac gemini_simpl :=
  cbv beta iota zeta fix
    delta [lrun ltry lbind lawait lthrow lret app].

(** What [transformImageWithGemini] does, by what its two clients
    answer. *)
Lemma transformImageWithGemini_run (c : Gemini.Clients)
    (imageBase64 style : jsstring) :
  let req := Gemini.content_request_of imageBase64 style in
  let wrap (e : js_error) :=
    Throw (A := jsstring)
          (new_Error (lit "Failed to transform image with Gemini: "
                      ++ message e)) in
  lrun (Gemini.transformImageWithGemini c imageBase64 style)
  = match Gemini.generateContent c req with
    | Rejected e => (wrap e, [Gemini.GenerateContent req])
    | Resolved result =>
        match Gemini.response_text result with
        | Throw e => (wrap e, [Gemini.GenerateContent req])
        | Ok description =>
            let greq :=
              generate_request
                (Gemini.dalle_prompt description
                   (get_property STYLE_PROMPTS style)) in
            let log := [Gemini.GenerateContent req;
                        Gemini.DalleGenerate greq] in
            match images_generate (Gemini.openai c) greq with
            | Rejected e => (wrap e, log)
            | Resolved generated =>
                match first_url generated with
                | None | Some [] =>
                    (wrap (new_Error (lit "Failed to generate image URL")),
                     log)
                | Some imageUrl => (Ok imageUrl, log)
                end
            end
        end
    end.
Proof.
  intros req wrap. unfold Gemini.transformImageWithGemini. fold req.
  gemini_simpl.
  destruct (Gemini.generateContent c req) as [result|e]; [|reflexivity].
  gemini_simpl.
  destruct (Gemini.response_text result) as [description|e]; [|reflexivity].
  gemini_simpl.
  destruct (images_generate (Gemini.openai c) _) as [generated|e];
    [|reflexivity].
  gemini_simpl.
  destruct (first_url generated) as [[|u us]|]; reflexivity.
Qed.

(** X23. The Gemini pipeline puts the description first and has no guard
    on it. For a style of the catalog, whatever text Gemini answers, the
    empty text included, the generation capability is called, with the
    prompt made of that text, then "Using the style: " and the style's
    template; Gemini itself is given the style's template and the image
    labelled image/jpeg. When the generation answers a non-empty URL, that
    URL is returned. *)
Theorem transformImageWithGemini_describes_then_styles (c : Gemini.Clients)
    (imageBase64 style description imageUrl : jsstring) result generated :
  In style style_ids ->
  Gemini.generateContent c (Gemini.content_request_of imageBase64 style)
    = Resolved result ->
  Gemini.response_text result = Ok description ->
  images_generate (Gemini.openai c)
    (generate_request
       (Gemini.dalle_prompt description (get_property STYLE_PROMPTS style)))
    = Resolved generated ->
  first_url generated = Some imageUrl ->
  imageUrl <> [] ->
  exists template,
    assoc style STYLE_PROMPTS = Some template
    /\ lrun (Gemini.transformImageWithGemini c imageBase64 style)
       = (Ok imageUrl,
          [Gemini.GenerateContent
             {| Gemini.gc_model := lit "gemini-1.5-flash";
                Gemini.gc_prompt := Own template;
                Gemini.gc_data := imageBase64;
                Gemini.gc_mimeType := lit "image/jpeg" |};
           Gemini.DalleGenerate
             (generate_request
                (description ++ LF ++ LF ++ lit "Using the style: "
                             ++ template))]).
Proof.
  intros Hstyle Hgem Htext Hgen Hurl Hne.
  destruct (style_has_template style Hstyle) as (template & Hown & _).
  exists template. split.
  - unfold get_property in Hown.
    destruct (assoc style STYLE_PROMPTS) as [t|]; [now inversion Hown|].
    destruct (assoc style Object_prototype); discriminate.
  - rewrite transformImageWithGemini_run. cbv zeta.
    rewrite Hgem, Htext, Hgen, Hurl.
    unfold Gemini.content_request_of, Gemini.dalle_prompt.
    rewrite Hown. destruct imageUrl as [|u us]; [congruence|]. reflexivity.
Qed.

(** X23 on a Gemini stub that answers the empty text. *)
Lemma transformImageWithGemini_describes_then_styles_witness :
  let c :=
    Gemini.stub_clients
      (Resolved {| Gemini.response_text := Ok [] |})
      (Resolved (generated_at (lit "https://img.example/1.png"))) in
  exists template,
    assoc (lit "vintage") STYLE_PROMPTS = Some template
    /\ lrun (Gemini.transformImageWithGemini c (lit "AAEC") (lit "vintage"))
       = (Ok (lit "https://img.example/1.png"),
          [Gemini.GenerateContent
             {| Gemini.gc_model := lit "gemini-1.5-flash";
                Gemini.gc_prompt := Own template;
                Gemini.gc_data := lit "AAEC";
                Gemini.gc_mimeType := lit "image/jpeg" |};
           Gemini.DalleGenerate
             (generate_request
                ([] ++ LF ++ LF ++ lit "Using the style: " ++ template))]).
Proof.
  intros c.
  apply (transformImageWithGemini_describes_then_styles c (lit "AAEC")
           (lit "vintage") [] (lit "https://img.example/1.png")
           {| Gemini.response_text := Ok [] |}
           (generated_at (lit "https://img.example/1.png")));
    try reflexivity.
  - simpl. tauto.
  - discriminate.
Defined.

(** X24. Whatever [transformImageWithGemini] throws is one fresh error
    whose message starts with "Failed to transform image with Gemini: ";
    and when the Gemini call rejects, or reading the text of its response
    throws, the generation capability is not called. *)
Theorem transformImageWithGemini_failures (c : Gemini.Clients)
    (imageBase64 style : jsstring) :
  (forall thrown,
      fst (lrun (Gemini.transformImageWithGemini c imageBase64 style))
      = Throw thrown ->
      exists m,
        thrown = Error (lit "Failed to transform image with Gemini: " ++ m))
  /\ ((forall description,
          Gemini.generateContent c
            (Gemini.content_request_of imageBase64 style)
          <> Resolved {| Gemini.response_text := Ok description |}) ->
      existsb Gemini.is_dalle
        (snd (lrun (Gemini.transformImageWithGemini c imageBase64 style)))
      = false).
Proof.
  rewrite transformImageWithGemini_run. cbv zeta. split.
  - intros thrown.
    destruct (Gemini.generateContent c _) as [result|e];
      [|intros [= <-]; eexists; reflexivity].
    destruct (Gemini.response_text result) as [description|e];
      [|intros [= <-]; eexists; reflexivity].
    destruct (images_generate (Gemini.openai c) _) as [generated|e];
      [|intros [= <-]; eexists; reflexivity].
    destruct (first_url generated) as [[|u us]|];
      intros [= <-]; eexists; reflexivity.
  - intros Hfail.
    destruct (Gemini.generateContent c _) as [result|e]; [|reflexivity].
    destruct result as [[description|e]]; [|reflexivity].
    now contradiction (Hfail description).
Qed.

(** ** The catalog, the schema and the templates *)

(** X25. The style tables agree: a string is accepted as a style by the
    transform route's schema exactly when the catalog route lists it,
    exactly when [STYLE_PROMPTS] has a template of its own for it, and
    exactly when [getStyleGradient] has a gradient of its own for it. *)
Theorem style_tables_agree (style : jsstring) :
  (styleTransformSchema_safeParse (VString style) = Some style
   <-> In style (map style_id get_api_styles))
  /\ (In style (map style_id get_api_styles)
      <-> exists template, get_property STYLE_PROMPTS style = Own template)
  /\ (In style (map style_id get_api_styles)
      <-> exists gradient, assoc style gradients = Some gradient).
Proof.
  rewrite get_api_styles_ids. split; [|split].
  - split.
    + intros Hparse. now apply safeParse_success in Hparse.
    + intros Hin. unfold styleTransformSchema_safeParse.
      apply array_includes_In in Hin. now rewrite Hin.
  - split.
    + intros Hin. destruct (style_has_template style Hin) as (t & Ht & _).
      now exists t.
    + intros (template & Hown).
      destruct (in_dec (list_eq_dec Z.eq_dec) style style_ids) as [Hin|Hnot];
        [assumption|].
      now contradiction (other_style_has_no_template style Hnot template).
  - split.
    + intros Hin. simpl in Hin.
      repeat (destruct Hin as [<-|Hin]; [eexists; reflexivity|]).
      destruct Hin.
    + intros (gradient & Hg).
      destruct (in_dec (list_eq_dec Z.eq_dec) style style_ids) as [Hin|Hnot];
        [assumption|].
      rewrite assoc_not_In in Hg by exact Hnot. discriminate.
Qed.
